(** * lit-prompt-config: the configuration-to-payload translation layer

    A shallow embedding of the helper functions of [src/utils.ts],
    [src/helpers/openrouter.ts], [src/helpers/anthropic.ts],
    [src/helpers/langchain.ts] and of the supported-parameter check of
    [src/prompt-config.ts], together with the properties the specification
    states about them.

    Conventions.
    - A JavaScript string is a [string]; only the characters [{], [}], [/],
      the digits, the sign and exponent letters and the word characters of
      the regular expression are ever inspected by the code below.
    - A JavaScript number is a binary64 [float]; a field that may be [null]
      or [undefined] at run time is an [option].
    - A plain object used as a dictionary ([Record<string, string>]) is a
      [gmap string string] of its own properties; reading a property falls
      back on [Object.prototype], as the language does. *)

From Stdlib Require Import ZArith Ascii String DecimalString.
From Stdlib Require Import Floats.PrimFloat Floats.SpecFloat Floats.FloatOps.
From Stdlib Require Floats.FloatAxioms.
From stdpp Require Import base option list gmap strings sorting.
From Equations Require Import Equations.

#[local] Set Warnings "-inexact-float,-register-all,-clear-no-such-hyp".

(** [simpl] may unfold string concatenation on a constructor. *)
#[local] Arguments String.append !_ _ / : simpl nomatch.

(** ** JavaScript strings *)

Module JsString.

(** [s.length] is [String.length]; [a + b] is [+:+]. *)

Lemma app_nil_r (s : string) : s +:+ "" = s.
Proof. induction s as [|c s IH]; simpl; [done | by rewrite IH]. Qed.

Lemma app_assoc (a b c : string) : (a +:+ b) +:+ c = a +:+ (b +:+ c).
Proof. induction a as [|x a IH]; simpl; [done | by rewrite IH]. Qed.

Lemma app_length (a b : string) :
  String.length (a +:+ b) = String.length a + String.length b.
Proof. induction a as [|x a IH]; simpl; [done | by rewrite IH]. Qed.

(** ToBoolean on a string: only the empty string is falsy. *)
Definition truthy (s : string) : bool :=
  match s with "" => false | _ => true end.

(** [s.includes(c)] for a one-character needle. *)
Fixpoint includes (c : ascii) (s : string) : bool :=
  match s with
  | "" => false
  | String x s' => if Ascii.eqb x c then true else includes c s'
  end.

(** [s.split(c)] for a one-character separator: the maximal runs between
    separators, empty runs included; the result is never the empty array. *)
Fixpoint split (c : ascii) (s : string) : list string :=
  match s with
  | "" => [""]
  | String x s' =>
      if Ascii.eqb x c then "" :: split c s'
      else match split c s' with
           | seg :: segs => String x seg :: segs
           | [] => [String x ""]
           end
  end.

(** [s.slice(from, to)], with the clamping of negative and oversized
    indices the language prescribes. *)
Definition slice (from to : Z) (s : string) : string :=
  let len := Z.of_nat (String.length s) in
  let clamp i := if (i <? 0)%Z then Z.max (len + i) 0 else Z.min i len in
  let a := clamp from in
  let b := clamp to in
  String.substring (Z.to_nat a) (Z.to_nat (Z.max (b - a) 0)) s.

End JsString.

(** ** The placeholder pattern [/\{\{(\w+)\}\}/g] *)

Module Placeholder.

(** [\w] without the [u] and [i] flags: ASCII letters, digits, underscore. *)
Definition isWordChar (c : ascii) : bool :=
  let n := nat_of_ascii c in
  ((48 <=? n) && (n <=? 57)) || ((65 <=? n) && (n <=? 90))
  || ((97 <=? n) && (n <=? 122)) || (n =? 95).

(** The greedy run [\w*] at the head of a string and what follows it. *)
Fixpoint takeWord (s : string) : string * string :=
  match s with
  | String c s' =>
      if isWordChar c then
        let (w, r) := takeWord s' in (String c w, r)
      else ("", s)
  | "" => ("", "")
  end.

(** Two copies of [b] at the head of a string, and what follows them. *)
Definition stripPair (b : ascii) (s : string) : option string :=
  match s with
  | String x (String y r) =>
      if Ascii.eqb x b && Ascii.eqb y b then Some r else None
  | _ => None
  end.

(** One attempt of the pattern anchored at the head of [s]: the captured
    group and the text after the match.  Backtracking into the greedy run
    cannot help, because the character after a shorter run is a word
    character and never the closing brace; [matchAt_Some] below states
    that the attempt succeeds exactly when [s] starts with a placeholder. *)
Definition matchAt (s : string) : option (string * string) :=
  s1 ← stripPair "{" s;
  match takeWord s1 with
  | ("", _) => None
  | (w, s2) => r ← stripPair "}" s2; Some (w, r)
  end.

(** The text of a match whose group captured [k]. *)
Definition literal (k : string) : string := "{{" +:+ k +:+ "}}".

(** Every character of [s] is a word character. *)
Fixpoint wordChars (s : string) : bool :=
  match s with
  | "" => true
  | String c s' => isWordChar c && wordChars s'
  end.

(** [s] does not start with a word character. *)
Definition stopsWord (s : string) : Prop :=
  match s with
  | "" => True
  | String c _ => isWordChar c = false
  end.

Lemma stripPair_Some (b : ascii) (s r : string) :
  stripPair b s = Some r ↔ s = String b (String b r).
Proof.
  destruct s as [|x [|y s]]; simpl; [done..|].
  destruct (Ascii.eqb_spec x b) as [->|]; simpl; [|naive_solver].
  destruct (Ascii.eqb_spec y b) as [->|]; simpl; naive_solver.
Qed.

Lemma takeWord_spec (s w r : string) :
  takeWord s = (w, r) ↔ s = w +:+ r ∧ wordChars w = true ∧ stopsWord r.
Proof.
  revert w r. induction s as [|c s IH]; intros w r; simpl.
  - split; [by intros [= <- <-]|].
    intros (H & _ & _). by destruct w, r.
  - destruct (isWordChar c) eqn:Hc.
    + destruct (takeWord s) as [w' r'].
      destruct (IH w' r') as [(-> & Hw' & Hr') _]; [done|].
      split.
      * intros [= <- <-]. simpl. by rewrite Hc, Hw'.
      * intros (H & Hw & Hr). destruct w as [|d w]; simpl in *.
        { subst r. simpl in Hr. congruence. }
        injection H as <- H. apply andb_true_iff in Hw as [_ Hw].
        assert ((w', r') = (w, r)) as [= -> ->] by (by apply IH).
        done.
    + split.
      * intros [= <- <-]. by simpl.
      * intros (H & Hw & Hr). destruct w as [|d w]; simpl in *.
        { by subst r. }
        injection H as <- _. apply andb_true_iff in Hw as [Hd _]. congruence.
Qed.

Lemma takeWord_length (s : string) :
  String.length (takeWord s).2 <= String.length s.
Proof.
  destruct (takeWord s) as [w r] eqn:H.
  apply takeWord_spec in H as [-> _]. rewrite JsString.app_length. simpl. lia.
Qed.

(** A successful attempt, read both ways: the string starts with the
    literal of the captured group, a non-empty run of word characters. *)
Lemma matchAt_Some (s k r : string) :
  matchAt s = Some (k, r) ↔
  s = literal k +:+ r ∧ k ≠ "" ∧ wordChars k = true.
Proof.
  unfold matchAt, literal. split.
  - intros H. destruct (stripPair "{" s) as [s1|] eqn:H1; [|done].
    apply stripPair_Some in H1 as ->. simpl in H.
    destruct (takeWord s1) as [w s2] eqn:Hw.
    destruct w as [|c w]; [done|].
    destruct (stripPair "}" s2) as [r'|] eqn:H2; [|done].
    apply stripPair_Some in H2 as ->. simpl in H. injection H as <- <-.
    apply takeWord_spec in Hw as (-> & Hw & _).
    split; [|done]. simpl. by rewrite !JsString.app_assoc.
  - intros (-> & Hk & Hw). simpl.
    assert (takeWord (k +:+ "}}" +:+ r) = (k, "}}" +:+ r)) as Ht.
    { by apply takeWord_spec. }
    rewrite JsString.app_assoc. simpl in *. rewrite Ht.
    by destruct k.
Qed.

Lemma matchAt_length (s k r : string) :
  matchAt s = Some (k, r) → String.length r < String.length s.
Proof.
  intros (-> & _ & _)%matchAt_Some. unfold literal.
  rewrite !JsString.app_length. simpl. lia.
Qed.

(** A value together with the equation that it is the value. *)
Definition inspect {A : Type} (a : A) : {b : A | a = b} := exist _ a eq_refl.

(** A piece of a scanned string: a character outside every match, or a
    match with its captured group. *)
Inductive piece : Type :=
| Char (c : ascii)
| Match (k : string).

(** The global scan shared by [String.prototype.match] and
    [String.prototype.replace] with the [g] flag: matches are searched from
    left to right, the search resumes right after each match, and a
    character at which no match starts is skipped. *)
Equations scan (s : string) : list piece by wf (String.length s) lt :=
  scan EmptyString := [];
  scan (String c s') with inspect (matchAt (String c s')) := {
    | exist _ (Some (k, r)) Hm := Match k :: scan r;
    | exist _ None _ := Char c :: scan s' }.
Next Obligation.
  exact (matchAt_length (String c s') k r Hm).
Qed.

(** The text a piece stands for in the scanned string. *)
Definition pieceText (p : piece) : string :=
  match p with
  | Char c => String c ""
  | Match k => literal k
  end.

(** [s.replace(/\{\{(\w+)\}\}/g, f)] with a replacer function, which is
    called with the matched text and the captured group; characters outside
    the matches are copied. *)
Definition render (f : string → string → string) (ps : list piece)
    : string :=
  foldr (λ p out,
           match p with
           | Char c => String c out
           | Match k => f (literal k) k +:+ out
           end) "" ps.

Definition replace (f : string → string → string) (s : string) : string :=
  render f (scan s).

(** [s.match(/\{\{(\w+)\}\}/g)]: the matched texts in order, each the
    literal of its captured group; [null] when there is none. *)
Definition captures (s : string) : list string :=
  omap (λ p, match p with Match k => Some k | Char _ => None end) (scan s).

Definition matches (s : string) : list string :=
  literal <$> captures s.

Definition match_ (s : string) : option (list string) :=
  match matches s with
  | [] => None
  | ms => Some ms
  end.

End Placeholder.

(** ** Plain objects and insertion-ordered sets *)

Module JsObject.

(** What [String(f)] prints for a built-in function (the wording of V8 and
    JavaScriptCore; other engines differ in white space only). *)
Definition nativeFunction (name : string) : string :=
  "function " +:+ name +:+ "() { [native code] }".

(** The members a plain object inherits from [Object.prototype], each with
    the text [String.prototype.replace] makes of it when a replacer returns
    it. *)
Definition prototypeMember (key : string) : option string :=
  if decide (key = "constructor") then Some (nativeFunction "Object")
  else if decide (key = "__proto__") then Some "[object Object]"
  else if decide (key ∈ ["hasOwnProperty"; "isPrototypeOf";
                         "propertyIsEnumerable"; "toLocaleString";
                         "toString"; "valueOf"; "__defineGetter__";
                         "__defineSetter__"; "__lookupGetter__";
                         "__lookupSetter__"])
  then Some (nativeFunction key)
  else None.

(** [o[key]], coerced to a string when it is not [undefined]: an own
    property shadows an inherited member. *)
Definition get (o : gmap string string) (key : string) : option string :=
  match o !! key with
  | Some v => Some v
  | None => prototypeMember key
  end.

(** [{ ...a, ...b }]: the own properties of both, those of [b] winning. *)
Definition spread (a b : gmap string string) : gmap string string := b ∪ a.

(** [new Set(xs)] read back with [[...set]]: the elements in insertion
    order, a value already present being skipped. *)
Definition setAdd (acc : list string) (x : string) : list string :=
  if decide (x ∈ acc) then acc else acc ++ [x].

Definition setOf (xs : list string) : list string := foldl setAdd [] xs.

End JsObject.

(** ** JavaScript numbers *)

Module JsNumber.

Definition number : Set := float.

(** ToBoolean on a number: [0], [-0] and [NaN] are falsy. *)
Definition truthy (x : number) : bool :=
  negb ((x =? 0)%float || is_nan x).

(** [x || d] and the guard [if (x)] on a field that may be missing. *)
Definition orElse (x : option number) (d : number) : number :=
  match x with
  | Some v => if truthy v then v else d
  | None => d
  end.

Definition whenTruthy (x : option number) : option number :=
  x ≫= λ v, if truthy v then Some v else None.

(** *** Reading a decimal numeral: [parseFloat] *)

Definition isDigit (c : ascii) : bool :=
  let n := nat_of_ascii c in (48 <=? n) && (n <=? 57).

Definition digitValue (c : ascii) : Z :=
  (Z.of_nat (nat_of_ascii c) - 48)%Z.

(** The code units [TrimString] removes, among those below 256. *)
Definition isWhiteSpace (c : ascii) : bool :=
  let n := nat_of_ascii c in
  ((9 <=? n) && (n <=? 13)) || (n =? 32) || (n =? 160).

Fixpoint trimStart (s : string) : string :=
  match s with
  | String c s' => if isWhiteSpace c then trimStart s' else s
  | "" => ""
  end.

(** The run of digits at the head of a string, read as a numeral (with the
    accumulator [acc] for the digits to its left), its length, and what
    follows it. *)
Fixpoint takeDigits (acc : Z) (s : string) : Z * nat * string :=
  match s with
  | String c s' =>
      if isDigit c then
        let '(v, n, r) := takeDigits (10 * acc + digitValue c)%Z s' in
        (v, S n, r)
      else (acc, 0, s)
  | "" => (acc, 0, "")
  end.

(** [ExponentPart]: [e] or [E], an optional sign, at least one digit.  An
    incomplete exponent is no part of the numeral. *)
Definition takeExponent (s : string) : Z :=
  match s with
  | String c s1 =>
      if Ascii.eqb c "e" || Ascii.eqb c "E" then
        let '(neg, s2) :=
          match s1 with
          | String d s2 =>
              if Ascii.eqb d "-" then (true, s2)
              else if Ascii.eqb d "+" then (false, s2)
              else (false, s1)
          | "" => (false, s1)
          end in
        match takeDigits 0%Z s2 with
        | (_, 0, _) => 0%Z
        | (v, _, _) => if neg then (- v)%Z else v
        end
      else 0%Z
  | "" => 0%Z
  end.

(** The mathematical value of the longest prefix that is a
    [StrUnsignedDecimalLiteral]: infinite, or [m * 10 ^ e]. *)
Inductive literalValue : Set :=
| Infinite
| Finite (m e : Z).

Definition startsWith (p s : string) : bool :=
  String.prefix p s.

Definition unsignedLiteral (s : string) : option literalValue :=
  if startsWith "Infinity" s then Some Infinite
  else
    let '(ip, ni, r1) := takeDigits 0%Z s in
    let '(m, nf, r2) :=
      match r1 with
      | String c r =>
          if Ascii.eqb c "." then takeDigits ip r else (ip, 0, r1)
      | "" => (ip, 0, r1)
      end in
    match ni + nf with
    | 0 => None
    | _ => Some (Finite m (takeExponent r2 - Z.of_nat nf)%Z)
    end.

(** The binary64 value nearest to [m1 / m2] (ties to even), with the sign
    [neg]; [m2] is positive. *)
Definition nearest (neg : bool) (m1 m2 : Z) : number :=
  match m1 with
  | Z0 => if neg then neg_zero else zero
  | _ =>
      let '(q, e, l) := SFdiv_core_binary prec emax m1 0%Z m2 0%Z in
      SF2Prim (binary_round_aux prec emax neg q e l)
  end.

Definition ofDecimal (neg : bool) (m e : Z) : number :=
  if (0 <=? e)%Z then nearest neg (m * 10 ^ e)%Z 1%Z
  else nearest neg m (10 ^ (- e))%Z.

Definition parseFloat (s : string) : number :=
  let t := trimStart s in
  let '(neg, u) :=
    match t with
    | String c t' =>
        if Ascii.eqb c "-" then (true, t')
        else if Ascii.eqb c "+" then (false, t')
        else (false, t)
    | "" => (false, t)
    end in
  match unsignedLiteral u with
  | None => nan
  | Some Infinite => if neg then neg_infinity else infinity
  | Some (Finite m e) => ofDecimal neg m e
  end.

(** *** Printing: [Number.prototype.toFixed] and [Number::toString] *)

Definition digitsOf (n : Z) : string :=
  NilZero.string_of_uint (N.to_uint (Z.to_N n)).

Fixpoint zeros (n : nat) : string :=
  match n with
  | 0 => ""
  | S n' => String "0" (zeros n')
  end.

(** The integer nearest to [a / b] for positive [b]: a tie goes up in
    [roundHalfUp], to the even neighbour in [roundHalfEven]. *)
Definition roundHalfUp (a b : Z) : Z := ((2 * a + b) / (2 * b))%Z.

Definition roundHalfEven (a b : Z) : Z :=
  let q := (a / b)%Z in
  match (2 * (a mod b) ?= b)%Z with
  | Lt => q
  | Gt => (q + 1)%Z
  | Eq => if Z.even q then q else (q + 1)%Z
  end.

(** A finite positive number as the fraction [num / den] it denotes. *)
Definition fraction (m : positive) (e : Z) : Z * Z :=
  if (0 <=? e)%Z then (Zpos m * 2 ^ e, 1)%Z else (Zpos m, 2 ^ (- e))%Z.

Fixpoint stripZeros (fuel : nat) (n : Z) : Z :=
  match fuel with
  | 0 => n
  | S f => if (n mod 10 =? 0)%Z then stripZeros f (n / 10) else n
  end.

(** [Number::toString] of a finite number that is at least [10 ^ 21]: the
    shortest digit string that reads back as the same number, in exponent
    notation.  [k] counts the digits tried, from one upwards. *)
Fixpoint shortest (fuel : nat) (k : nat) (x : number) (num den : Z)
    (n : nat) : Z :=
  let scale := (10 ^ Z.of_nat (n - k))%Z in
  let s := roundHalfEven num (den * scale) in
  match fuel with
  | 0 => (s * scale)%Z
  | S f =>
      if (ofDecimal false s (Z.of_nat (n - k)) =? x)%float
      then (s * scale)%Z
      else shortest f (S k) x num den n
  end.

Definition exponential (v : Z) : string :=
  let all := digitsOf v in
  let n := String.length all in
  let sig := digitsOf (stripZeros n v) in
  let mantissa :=
    match sig with
    | String d "" => sig
    | String d ds => String d (String "." ds)
    | "" => sig
    end in
  mantissa +:+ "e+" +:+ digitsOf (Z.of_nat (n - 1)).

(** [x.toFixed(f)]. *)
Definition toFixed (f : nat) (x : number) : string :=
  match Prim2SF x with
  | S754_nan => "NaN"
  | S754_infinity neg => if neg then "-Infinity" else "Infinity"
  | S754_zero _ =>
      match f with 0 => "0" | _ => "0." +:+ zeros f end
  | S754_finite neg m e =>
      let sign := if neg then "-" else "" in
      let '(num, den) := fraction m e in
      if (10 ^ 21 * den <=? num)%Z then
        let n := String.length (digitsOf (num / den)%Z) in
        sign +:+ exponential (shortest 17 1 (abs x) num den n)
      else
        let n := roundHalfUp (num * 10 ^ Z.of_nat f)%Z den in
        let ds := digitsOf n in
        let k := String.length ds in
        let padded := if k <=? f then zeros (S f - k) +:+ ds else ds in
        let k' := String.length padded in
        match f with
        | 0 => sign +:+ padded
        | _ => sign +:+ String.substring 0 (k' - f) padded +:+ "."
               +:+ String.substring (k' - f) f padded
        end
  end.

End JsNumber.

(** ** More string methods, for the model list and the stop sequences *)

Module JsText.

(** [c.toLowerCase()] on a code unit below 256: the letters [A] to [Z] and
    the capital letters of Latin-1 (all of U+00C0 to U+00DE but the
    multiplication sign) move up by 32. *)
Definition lowerChar (c : ascii) : ascii :=
  let n := nat_of_ascii c in
  if ((65 <=? n) && (n <=? 90))
     || ((192 <=? n) && (n <=? 222) && negb (n =? 215))
  then ascii_of_nat (n + 32)
  else c.

Fixpoint toLowerCase (s : string) : string :=
  match s with
  | "" => ""
  | String c s' => String (lowerChar c) (toLowerCase s')
  end.

(** [s.trim()]: white space is removed at both ends. *)
Fixpoint trimEnd (s : string) : string :=
  match s with
  | "" => ""
  | String c s' =>
      match trimEnd s' with
      | "" => if JsNumber.isWhiteSpace c then "" else String c ""
      | r => String c r
      end
  end.

Definition trim (s : string) : string := trimEnd (JsNumber.trimStart s).

(** [s.includes(q)] for a needle of any length. *)
Fixpoint includesText (q s : string) : bool :=
  String.prefix q s
  || match s with
     | String _ s' => includesText q s'
     | "" => false
     end.

(** [xs.join(sep)]. *)
Fixpoint join (sep : string) (xs : list string) : string :=
  match xs with
  | [] => ""
  | [x] => x
  | x :: r => x +:+ sep +:+ join sep r
  end.

(** The line feed, as a character and as a separator. *)
Definition lineFeed : ascii := ascii_of_nat 10.

End JsText.

(** ** [src/utils.ts] and the private copies in the helpers *)

Module Utils.
Import Placeholder.

(** [extractTemplateVars] of [src/utils.ts]; [extractVariables] of
    [src/helpers/langchain.ts] has the same body. *)
Definition extractTemplateVars (template : option string) : list string :=
  let matches := default [] (template ≫= match_) in
  JsObject.setOf (map (JsString.slice 2 (-2)) matches).

Definition extractVariables (template : option string) : list string :=
  let matches := default [] (template ≫= match_) in
  JsObject.setOf (map (JsString.slice 2 (-2)) matches).

(** [resolveTemplate] of [src/utils.ts]; the helpers [openrouter.ts] and
    [anthropic.ts] carry the same function. *)
Definition resolveTemplate (template : option string)
    (vars : gmap string string) : string :=
  match template with
  | None | Some "" => ""
  | Some t =>
      replace (λ _ key, default (literal key) (JsObject.get vars key)) t
  end.

(** [convertTemplate] of [src/helpers/langchain.ts]: the replacement
    pattern ['{$1}'] puts the captured group between single braces. *)
Definition convertTemplate (template : option string) : string :=
  match template with
  | None | Some "" => ""
  | Some t => replace (λ _ key, "{" +:+ key +:+ "}") t
  end.

(** [formatPrice] of [src/utils.ts]. *)
Definition formatPrice (priceStr : option string) : string :=
  match priceStr with
  | None => "free"
  | Some str =>
      if negb (JsString.truthy str) || String.eqb str "0" then "free"
      else
        let p := (JsNumber.parseFloat str * 1000000)%float in
        if (p <? 0.01)%float then "<$0.01/M"
        else "$" +:+ JsNumber.toFixed 2 p +:+ "/M"
  end.

(** [priceToCostPerMillion] of [src/utils.ts]; [None] is [null]. *)
Definition priceToCostPerMillion (priceStr : option string)
    : option JsNumber.number :=
  match priceStr with
  | None => None
  | Some str =>
      if negb (JsString.truthy str) || String.eqb str "0" then None
      else
        let perToken := JsNumber.parseFloat str in
        if is_nan perToken || (perToken =? 0)%float then None
        else Some (perToken * 1000000)%float
  end.

(** [estimateCost] of [src/utils.ts]; [None] is [null].  The two
    branches on [total < 0.01] print the same text. *)
Definition estimateCost (inputTokens outputTokens : JsNumber.number)
    (inputCostPerMillion outputCostPerMillion : option JsNumber.number)
    : option string :=
  match inputCostPerMillion, outputCostPerMillion with
  | None, None => None
  | _, _ =>
      let inputCost :=
        match JsNumber.whenTruthy inputCostPerMillion with
        | Some rate => (inputTokens / 1000000 * rate)%float
        | None => 0%float
        end in
      let outputCost :=
        match JsNumber.whenTruthy outputCostPerMillion with
        | Some rate => (outputTokens / 1000000 * rate)%float
        | None => 0%float
        end in
      let total := (inputCost + outputCost)%float in
      if (total <? 0.0001)%float then Some "<$0.0001"
      else if (total <? 0.01)%float
           then Some ("$" +:+ JsNumber.toFixed 4 total)
           else Some ("$" +:+ JsNumber.toFixed 4 total)
  end.

End Utils.

(** ** [src/types.ts] *)

Module Types.

Inductive ResponseFormat : Set := text | json_object | json_schema.
Inductive ToolChoice : Set := auto | none | required.
Inductive ReasoningEffort : Set := low | medium | high.
Inductive Role : Set := system | user | assistant.

(** A JSON value, for the schemas the configuration carries along. *)
Inductive Json : Type :=
| JNull
| JBool (b : bool)
| JNumber (x : JsNumber.number)
| JString (s : string)
| JArray (xs : list Json)
| JObject (fields : list (string * Json)).

Record ToolFunction : Type := {
  name : string;
  description : option string;
  parameters : option (list (string * Json));
}.

Record ToolDefinition : Type := {
  type : string;
  function : option ToolFunction;
}.

(** [JsonSchema]; [schemaName] is its field [name]. *)
Record JsonSchema : Type := {
  schemaName : string;
  strict : option bool;
  schema : list (string * Json);
}.

Record Message : Type := {
  role : Role;
  content : string;
}.

(** [PromptConfig]; [configName] is its field [name].  The builders guard
    their reads of the prompts, of the numeric parameters and of the two
    arrays against a missing value, so these fields are optional here:
    [None] is [null] or [undefined]. *)
Record PromptConfig : Type := {
  id : string;
  configName : string;
  model : string;
  systemPrompt : option string;
  userPromptTemplate : option string;
  temperature : option JsNumber.number;
  maxTokens : option JsNumber.number;
  topP : option JsNumber.number;
  topK : option JsNumber.number;
  frequencyPenalty : option JsNumber.number;
  presencePenalty : option JsNumber.number;
  repetitionPenalty : option JsNumber.number;
  minP : option JsNumber.number;
  stopSequences : option (list string);
  responseFormat : ResponseFormat;
  jsonSchema : option JsonSchema;
  tools : option (list ToolDefinition);
  toolChoice : ToolChoice;
  reasoning : bool;
  reasoningEffort : option ReasoningEffort;
  sampleInputs : gmap string string;
  metadata : list (string * Json);
}.

(** [OpenRouterModel], as far as the supported-parameter check reads it;
    [modelId] and [modelName] are its fields [id] and [name]. *)
Record OpenRouterModel : Type := {
  modelId : string;
  modelName : string;
  context_length : JsNumber.number;
  supported_parameters : option (list string);
}.

(** The guard [if (xs?.length)]. *)
Definition nonEmpty {A : Type} (xs : option (list A)) : bool :=
  match xs with
  | Some (_ :: _) => true
  | _ => false
  end.

(** The guard [x != null && x !== 1]. *)
Definition setAndNotOne (x : option JsNumber.number)
    : option JsNumber.number :=
  x ≫= λ v, if (v =? 1)%float then None else Some v.

End Types.

(** ** [src/helpers/openrouter.ts] *)

Module OpenRouter.
Import Types.

Record ResponseFormatField : Type := {
  rfType : string;
  json_schema : option JsonSchema;
}.

Record ReasoningField : Type := {
  effort : ReasoningEffort;
}.

Record OpenRouterPayload : Type := {
  model : string;
  messages : list Message;
  temperature : option JsNumber.number;
  max_tokens : option JsNumber.number;
  top_p : option JsNumber.number;
  top_k : option JsNumber.number;
  frequency_penalty : option JsNumber.number;
  presence_penalty : option JsNumber.number;
  repetition_penalty : option JsNumber.number;
  min_p : option JsNumber.number;
  stop : option (list string);
  response_format : option ResponseFormatField;
  tools : option (list ToolDefinition);
  tool_choice : option ToolChoice;
  reasoning : option ReasoningField;
}.

Definition toOpenRouterPayload (config : PromptConfig)
    (variables : gmap string string) : OpenRouterPayload :=
  let mergedVars := JsObject.spread (sampleInputs config) variables in
  let resolvedUserPrompt :=
    Utils.resolveTemplate (userPromptTemplate config) mergedVars in
  let messages :=
    (match systemPrompt config with
     | Some sp =>
         if JsString.truthy sp then [{| role := system; content := sp |}]
         else []
     | None => []
     end)
    ++ (if JsString.truthy resolvedUserPrompt
        then [{| role := user; content := resolvedUserPrompt |}]
        else []) in
  {| model := Types.model config;
     messages := messages;
     temperature := Types.temperature config;
     max_tokens := JsNumber.whenTruthy (maxTokens config);
     top_p := setAndNotOne (topP config);
     top_k := JsNumber.whenTruthy (topK config);
     frequency_penalty := JsNumber.whenTruthy (frequencyPenalty config);
     presence_penalty := JsNumber.whenTruthy (presencePenalty config);
     repetition_penalty :=
       setAndNotOne (JsNumber.whenTruthy (repetitionPenalty config));
     min_p := JsNumber.whenTruthy (minP config);
     stop :=
       if nonEmpty (stopSequences config) then stopSequences config
       else None;
     response_format :=
       match responseFormat config, jsonSchema config with
       | Types.json_object, _ =>
           Some {| rfType := "json_object"; json_schema := None |}
       | Types.json_schema, Some js =>
           Some {| rfType := "json_schema"; json_schema := Some js |}
       | _, _ => None
       end;
     tools :=
       if nonEmpty (Types.tools config) then Types.tools config else None;
     tool_choice :=
       if nonEmpty (Types.tools config) then
         match toolChoice config with
         | auto => None
         | tc => Some tc
         end
       else None;
     reasoning :=
       if Types.reasoning config
       then Some {| effort := default medium (reasoningEffort config) |}
       else None |}.

End OpenRouter.

(** ** [src/helpers/anthropic.ts] *)

Module Anthropic.
Import Types.

Record AnthropicTool : Type := {
  name : string;
  description : string;
  input_schema : list (string * Json);
}.

Inductive AnthropicToolChoice : Set := choiceAny | choiceNone.

(** An [AnthropicMessage] is a [Message]: the builder is to keep the
    system role out of the list. *)
Record AnthropicPayload : Type := {
  model : string;
  messages : list Message;
  max_tokens : JsNumber.number;
  system : option string;
  temperature : option JsNumber.number;
  top_p : option JsNumber.number;
  top_k : option JsNumber.number;
  stop_sequences : option (list string);
  tools : option (list AnthropicTool);
  tool_choice : option AnthropicToolChoice;
}.

(** [t.function.description || ''] and the like. *)
Definition convertTools (ts : list ToolDefinition) : list AnthropicTool :=
  omap (λ t,
          if String.eqb (type t) "function" then
            match function t with
            | Some f =>
                Some {| name := Types.name f;
                        description :=
                          default "" (Types.description f);
                        input_schema := default [] (parameters f) |}
            | None => None
            end
          else None) ts.

(** [model.split('/').pop() || model], under [model.includes('/')]. *)
Definition modelName (model : string) : string :=
  if JsString.includes "/" model then
    match last (JsString.split "/" model) with
    | Some seg => if JsString.truthy seg then seg else model
    | None => model
    end
  else model.

Definition toAnthropicPayload (config : PromptConfig)
    (variables : gmap string string) : AnthropicPayload :=
  let mergedVars := JsObject.spread (sampleInputs config) variables in
  let resolvedUserPrompt :=
    Utils.resolveTemplate (userPromptTemplate config) mergedVars in
  let messages :=
    if JsString.truthy resolvedUserPrompt
    then [{| role := user; content := resolvedUserPrompt |}]
    else [] in
  {| model := modelName (Types.model config);
     messages := messages;
     max_tokens := JsNumber.orElse (maxTokens config) 4096%float;
     system :=
       match systemPrompt config with
       | Some sp => if JsString.truthy sp then Some sp else None
       | None => None
       end;
     temperature := Types.temperature config;
     top_p := setAndNotOne (topP config);
     top_k := JsNumber.whenTruthy (topK config);
     stop_sequences :=
       if nonEmpty (stopSequences config) then stopSequences config
       else None;
     tools :=
       if nonEmpty (Types.tools config)
       then convertTools <$> Types.tools config
       else None;
     tool_choice :=
       if nonEmpty (Types.tools config) then
         match toolChoice config with
         | required => Some choiceAny
         | none => Some choiceNone
         | auto => None
         end
       else None |}.

End Anthropic.

(** ** [src/helpers/langchain.ts] *)

Module LangChain.
Import Types.

Record LangChainPromptConfig : Type := {
  systemTemplate : string;
  userTemplate : string;
  inputVariables : list string;
}.

Definition toPromptTemplate (config : PromptConfig)
    : LangChainPromptConfig :=
  {| systemTemplate := default "" (systemPrompt config);
     userTemplate := Utils.convertTemplate (userPromptTemplate config);
     inputVariables := Utils.extractVariables (userPromptTemplate config) |}.

Record LangChainModelConfig : Type := {
  modelName : string;
  temperature : option JsNumber.number;
  maxTokens : option JsNumber.number;
  topP : option JsNumber.number;
  topK : option JsNumber.number;
  frequencyPenalty : option JsNumber.number;
  presencePenalty : option JsNumber.number;
  stop : option (list string);
}.

Definition getModelConfig (config : PromptConfig) : LangChainModelConfig :=
  {| modelName := model config;
     temperature := Types.temperature config;
     maxTokens := Types.maxTokens config;
     topP := setAndNotOne (Types.topP config);
     topK := JsNumber.whenTruthy (Types.topK config);
     frequencyPenalty := JsNumber.whenTruthy (Types.frequencyPenalty config);
     presencePenalty := JsNumber.whenTruthy (Types.presencePenalty config);
     stop :=
       if nonEmpty (stopSequences config) then stopSequences config
       else None |}.

(** [modelId.split('/')[0] || 'unknown']. *)
Definition getProvider (modelId : string) : string :=
  match JsString.split "/" modelId !! 0 with
  | Some seg => if JsString.truthy seg then seg else "unknown"
  | None => "unknown"
  end.

End LangChain.

(** ** The supported-parameter check of [src/prompt-config.ts] *)

Module PromptConfigElement.
Import Types.

(** [this._models.find((m) => m.id === this.value?.model)]. *)
Definition _selectedModel (models : list OpenRouterModel)
    (value : option PromptConfig) : option OpenRouterModel :=
  List.find (λ m, match value with
                  | Some v => String.eqb (modelId m) (model v)
                  | None => false
                  end) models.

(** [this._selectedModel?.supported_parameters || []]. *)
Definition _supportedParams (selected : option OpenRouterModel)
    : list string :=
  default [] (selected ≫= supported_parameters).

(** [const has = (p) => !sp.length || sp.includes(p)]. *)
Definition has (sp : list string) (p : string) : bool :=
  (length sp =? 0) || bool_decide (p ∈ sp).

(** *** The model list *)

(** [id.split('/')[0]]; the array is never empty. *)
Definition idPrefix (id : string) : string :=
  default "" (JsString.split "/" id !! 0).

(** The provider filters in force: the [provider-filter] attribute when it
    lists something, else the provider chosen in the drop-down unless that
    is [__all__]. *)
Definition providerFilters (providerFilter : option (list string))
    (_selectedProvider : string) : list string :=
  if nonEmpty providerFilter then default [] providerFilter
  else if String.eqb _selectedProvider "__all__" then []
       else [_selectedProvider].

Definition matchesSearch (q : string) (m : OpenRouterModel) : bool :=
  JsText.includesText q (JsText.toLowerCase (modelId m))
  || JsText.includesText q (JsText.toLowerCase (modelName m)).

Definition _filteredModels (_models : list OpenRouterModel)
    (providerFilter : option (list string))
    (_selectedProvider _modelSearch : string) : list OpenRouterModel :=
  let filters := providerFilters providerFilter _selectedProvider in
  let models :=
    match filters with
    | [] => _models
    | _ =>
        List.filter
          (λ m, bool_decide (idPrefix (modelId m) ∈ filters)) _models
    end in
  if JsString.truthy (JsText.trim _modelSearch) then
    List.filter (matchesSearch (JsText.toLowerCase _modelSearch)) models
  else models.

(** A [Map<string, number>]: the entries in the order of their first
    insertion; [set] on a key that is there keeps its place. *)
Fixpoint mapGet (seen : list (string * nat)) (key : string) : option nat :=
  match seen with
  | [] => None
  | (k, v) :: r => if String.eqb k key then Some v else mapGet r key
  end.

Fixpoint mapSet (seen : list (string * nat)) (key : string) (v : nat)
    : list (string * nat) :=
  match seen with
  | [] => [(key, v)]
  | (k, w) :: r =>
      if String.eqb k key then (k, v) :: r else (k, w) :: mapSet r key v
  end.

(** The counting loop of [_availableProviders]:
    [seen.set(prefix, (seen.get(prefix) || 0) + 1)]. *)
Definition countPrefix (seen : list (string * nat)) (m : OpenRouterModel)
    : list (string * nat) :=
  let prefix := idPrefix (modelId m) in
  mapSet seen prefix (default 0 (mapGet seen prefix) + 1).

Definition prefixCounts (_models : list OpenRouterModel)
    : list (string * nat) :=
  foldl countPrefix [] _models.

(** [entries.sort((a, b) => b[1] - a[1])].  The sort of the language is
    stable, so with this comparator its result is the one of any stable
    sort by decreasing count; here an insertion sort, each entry going in
    front of the later entries that do not count more. *)
Fixpoint insertByCount (x : string * nat) (sorted : list (string * nat))
    : list (string * nat) :=
  match sorted with
  | [] => [x]
  | y :: r => if x.2 <? y.2 then y :: insertByCount x r else x :: y :: r
  end.

Definition sortByCount (entries : list (string * nat))
    : list (string * nat) :=
  foldr insertByCount [] entries.

Definition _availableProviders (_models : list OpenRouterModel)
    (providerFilter : option (list string)) : list (string * nat) :=
  sortByCount
    (List.filter
       (λ e, negb (nonEmpty providerFilter)
             || bool_decide (e.1 ∈ default [] providerFilter))
       (prefixCounts _models)).

(** *** The stop sequences and their text area *)

(** [_syncTextEditors]: [(v.stopSequences || []).join('\n')]. *)
Definition stopSeqText (stopSequences : option (list string)) : string :=
  JsText.join (String JsText.lineFeed "") (default [] stopSequences).

(** The input handler of the text area:
    [text.split('\n').filter((s) => s.length > 0)]. *)
Definition parseStopSeqText (text : string) : list string :=
  List.filter (λ s, 0 <? String.length s)
    (JsString.split JsText.lineFeed text).

(** *** The test event *)

(** The payload [_onTest] puts in the [prompt-test] event, built from the
    configuration and its sample inputs alone. *)
Definition _onTest (value : PromptConfig) : OpenRouter.OpenRouterPayload :=
  let sampleInputs := Types.sampleInputs value in
  let resolvedUserPrompt :=
    Utils.resolveTemplate (userPromptTemplate value) sampleInputs in
  let messages :=
    (match systemPrompt value with
     | Some sp =>
         if JsString.truthy sp then [{| role := system; content := sp |}]
         else []
     | None => []
     end)
    ++ (if JsString.truthy resolvedUserPrompt
        then [{| role := user; content := resolvedUserPrompt |}]
        else []) in
  {| OpenRouter.model := Types.model value;
     OpenRouter.messages := messages;
     OpenRouter.temperature := Types.temperature value;
     OpenRouter.max_tokens := JsNumber.whenTruthy (maxTokens value);
     OpenRouter.top_p := setAndNotOne (topP value);
     OpenRouter.top_k := JsNumber.whenTruthy (topK value);
     OpenRouter.frequency_penalty :=
       JsNumber.whenTruthy (frequencyPenalty value);
     OpenRouter.presence_penalty :=
       JsNumber.whenTruthy (presencePenalty value);
     OpenRouter.repetition_penalty :=
       setAndNotOne (JsNumber.whenTruthy (repetitionPenalty value));
     OpenRouter.min_p := JsNumber.whenTruthy (minP value);
     OpenRouter.stop :=
       if nonEmpty (stopSequences value) then stopSequences value
       else None;
     OpenRouter.response_format :=
       match responseFormat value, jsonSchema value with
       | Types.json_object, _ =>
           Some {| OpenRouter.rfType := "json_object";
                   OpenRouter.json_schema := None |}
       | Types.json_schema, Some js =>
           Some {| OpenRouter.rfType := "json_schema";
                   OpenRouter.json_schema := Some js |}
       | _, _ => None
       end;
     OpenRouter.tools :=
       if nonEmpty (Types.tools value) then Types.tools value else None;
     OpenRouter.tool_choice :=
       if nonEmpty (Types.tools value) then
         match toolChoice value with
         | auto => None
         | tc => Some tc
         end
       else None;
     OpenRouter.reasoning :=
       if Types.reasoning value
       then Some {| OpenRouter.effort :=
                      default medium (reasoningEffort value) |}
       else None |}.

End PromptConfigElement.

(** ** The sections and the test panel of [src/prompt-config.ts] *)

Module Panel.

Inductive SectionId : Set :=
| identity | model | prompts | parameters | response | tools | reasoning
| test.

#[export] Instance SectionId_eq_dec : EqDecision SectionId.
Proof. solve_decision. Defined.

(** A [Set<SectionId>] as the list of its elements in insertion order. *)
Definition _isSectionOpen (_expandedSections : list SectionId)
    (name : SectionId) : bool :=
  bool_decide (name ∈ _expandedSections).

(** [_toggleSection]: a copy of the set, with [name] deleted when it is
    there and added when it is not. *)
Definition _toggleSection (_expandedSections : list SectionId)
    (name : SectionId) : list SectionId :=
  if bool_decide (name ∈ _expandedSections)
  then filter (λ x, x ≠ name) _expandedSections
  else _expandedSections ++ [name].

(** The sets the component starts from: [new Set(['model', 'prompts'])]. *)
Definition initialSections : list SectionId := [model; prompts].

(** The state of the test panel. *)
Record TestState : Type := {
  _testResult : option Types.Json;
  _testError : option string;
  _testLoading : bool;
}.

Definition initialTestState : TestState :=
  {| _testResult := None; _testError := None; _testLoading := false |}.

(** What [setTestError] may be given: a string, or an [Error] with its
    name and message. *)
Inductive TestFailure : Type :=
| FailureText (text : string)
| FailureError (name message : string).

(** [typeof error === 'string' ? error : error?.message || String(error)];
    [String] of an error with an empty message is its name. *)
Definition failureText (error : TestFailure) : string :=
  match error with
  | FailureText text => text
  | FailureError name message =>
      if JsString.truthy message then message else name
  end.

Definition setTestResult (result : Types.Json) (st : TestState)
    : TestState :=
  {| _testLoading := false; _testError := None; _testResult := Some result |}.

Definition setTestError (error : TestFailure) (st : TestState) : TestState :=
  {| _testLoading := false; _testResult := None;
     _testError := Some (failureText error) |}.

Definition setTestLoading (loading : bool) (st : TestState) : TestState :=
  if loading then
    {| _testLoading := loading; _testResult := None; _testError := None |}
  else
    {| _testLoading := loading; _testResult := _testResult st;
       _testError := _testError st |}.

(** A call of the public interface of the test panel. *)
Inductive TestCall : Type :=
| CallResult (result : Types.Json)
| CallError (error : TestFailure)
| CallLoading (loading : bool).

Definition call (c : TestCall) (st : TestState) : TestState :=
  match c with
  | CallResult r => setTestResult r st
  | CallError e => setTestError e st
  | CallLoading l => setTestLoading l st
  end.

(** The state after a sequence of calls, the first call first. *)
Definition calls (cs : list TestCall) (st : TestState) : TestState :=
  foldl (λ s c, call c s) st cs.

End Panel.

(** ** Notions of the specification *)

Module Spec.

(** The distinct elements of a list in the order of their first
    occurrences, as the specification words it. *)
Fixpoint distinct (xs : list string) : list string :=
  match xs with
  | [] => []
  | x :: r => x :: filter (λ y, y ≠ x) (distinct r)
  end.

(** The variables cover a template when each of its placeholders names
    one of their keys. *)
Definition covers (vars : gmap string string) (t : option string) : Prop :=
  Forall (λ k, is_Some (vars !! k)) (Utils.extractTemplateVars t).

End Spec.

(** ** Configurations of the helpers' tests *)

Module Fixtures.
Import Types.

(** The configuration the tests of the helpers start from. *)
Definition baseConfig : PromptConfig :=
  {| id := "test";
     configName := "Test";
     model := "openai/gpt-4o";
     systemPrompt := Some "";
     userPromptTemplate := Some "";
     temperature := Some 1%float;
     maxTokens := Some 4096%float;
     topP := Some 1%float;
     topK := Some 0%float;
     frequencyPenalty := Some 0%float;
     presencePenalty := Some 0%float;
     repetitionPenalty := Some 1%float;
     minP := Some 0%float;
     stopSequences := Some [];
     responseFormat := text;
     jsonSchema := None;
     tools := Some [];
     toolChoice := auto;
     reasoning := false;
     reasoningEffort := Some medium;
     sampleInputs := ∅;
     metadata := [] |}.

(** [{ ...c, model: m }] and [{ ...c, topP: x }]. *)
Definition withModel (m : string) (c : PromptConfig) : PromptConfig :=
  {| id := id c; configName := configName c; model := m;
     systemPrompt := systemPrompt c;
     userPromptTemplate := userPromptTemplate c;
     temperature := temperature c; maxTokens := maxTokens c;
     topP := topP c; topK := topK c;
     frequencyPenalty := frequencyPenalty c;
     presencePenalty := presencePenalty c;
     repetitionPenalty := repetitionPenalty c; minP := minP c;
     stopSequences := stopSequences c;
     responseFormat := responseFormat c; jsonSchema := jsonSchema c;
     tools := tools c; toolChoice := toolChoice c;
     reasoning := reasoning c; reasoningEffort := reasoningEffort c;
     sampleInputs := sampleInputs c; metadata := metadata c |}.

Definition withTopP (x : option JsNumber.number) (c : PromptConfig)
    : PromptConfig :=
  {| id := id c; configName := configName c; model := model c;
     systemPrompt := systemPrompt c;
     userPromptTemplate := userPromptTemplate c;
     temperature := temperature c; maxTokens := maxTokens c;
     topP := x; topK := topK c;
     frequencyPenalty := frequencyPenalty c;
     presencePenalty := presencePenalty c;
     repetitionPenalty := repetitionPenalty c; minP := minP c;
     stopSequences := stopSequences c;
     responseFormat := responseFormat c; jsonSchema := jsonSchema c;
     tools := tools c; toolChoice := toolChoice c;
     reasoning := reasoning c; reasoningEffort := reasoningEffort c;
     sampleInputs := sampleInputs c; metadata := metadata c |}.

Definition withUserPromptTemplate (t : string) (c : PromptConfig)
    : PromptConfig :=
  {| id := id c; configName := configName c; model := model c;
     systemPrompt := systemPrompt c;
     userPromptTemplate := Some t;
     temperature := temperature c; maxTokens := maxTokens c;
     topP := topP c; topK := topK c;
     frequencyPenalty := frequencyPenalty c;
     presencePenalty := presencePenalty c;
     repetitionPenalty := repetitionPenalty c; minP := minP c;
     stopSequences := stopSequences c;
     responseFormat := responseFormat c; jsonSchema := jsonSchema c;
     tools := tools c; toolChoice := toolChoice c;
     reasoning := reasoning c; reasoningEffort := reasoningEffort c;
     sampleInputs := sampleInputs c; metadata := metadata c |}.

Definition withSampleInputs (inputs : gmap string string)
    (c : PromptConfig) : PromptConfig :=
  {| id := id c; configName := configName c; model := model c;
     systemPrompt := systemPrompt c;
     userPromptTemplate := userPromptTemplate c;
     temperature := temperature c; maxTokens := maxTokens c;
     topP := topP c; topK := topK c;
     frequencyPenalty := frequencyPenalty c;
     presencePenalty := presencePenalty c;
     repetitionPenalty := repetitionPenalty c; minP := minP c;
     stopSequences := stopSequences c;
     responseFormat := responseFormat c; jsonSchema := jsonSchema c;
     tools := tools c; toolChoice := toolChoice c;
     reasoning := reasoning c; reasoningEffort := reasoningEffort c;
     sampleInputs := inputs; metadata := metadata c |}.

(** A small catalogue of models. *)
Definition catalogueModel (i n : string) : OpenRouterModel :=
  {| modelId := i; modelName := n; context_length := 128000%float;
     supported_parameters := Some ["temperature"; "top_p"] |}.

Definition catalogue : list OpenRouterModel :=
  [ catalogueModel "openai/gpt-4o" "GPT-4o";
    catalogueModel "anthropic/claude-sonnet-4-5" "Claude Sonnet 4.5";
    catalogueModel "openai/o1" "o1";
    catalogueModel "meta-llama/llama-3/70b" "Llama 3 70B" ].

End Fixtures.

(** * Properties *)

(** ** The global scan *)

Module ScanFacts.
Import Placeholder.

Lemma scan_nil : scan "" = [].
Proof. by simp scan. Qed.

Lemma scan_match (s k r : string) :
  matchAt s = Some (k, r) → scan s = Match k :: scan r.
Proof.
  intros H. destruct s as [|c s']; [done|]. simp scan.
  generalize (inspect (matchAt (String c s'))).
  intros [[[k' r']|] Ho]; simp scan; congruence.
Qed.

Lemma scan_char (c : ascii) (s' : string) :
  matchAt (String c s') = None → scan (String c s') = Char c :: scan s'.
Proof.
  intros H. simp scan.
  generalize (inspect (matchAt (String c s'))).
  intros [[[k' r']|] Ho]; simp scan; congruence.
Qed.

(** A placeholder at the head of a string is one match, and the scan goes
    on behind it. *)
Lemma scan_literal (k post : string) :
  k ≠ "" → wordChars k = true →
  scan (literal k +:+ post) = Match k :: scan post.
Proof. intros Hk Hw. apply scan_match. by apply matchAt_Some. Qed.

(** Strong induction on the length of a string. *)
Lemma string_length_ind (P : string → Prop) :
  (∀ s, (∀ r, String.length r < String.length s → P r) → P s) → ∀ s, P s.
Proof.
  intros step s. remember (String.length s) as n eqn:Hn.
  revert s Hn. induction n as [n IH] using lt_wf_ind.
  intros s ->. apply step. intros r Hr. by apply (IH (String.length r)).
Qed.

(** Text after a run of word characters does not change the run when it
    starts with another character. *)
Lemma takeWord_app (s x w r : string) :
  takeWord s = (w, r) → stopsWord x → x ≠ "" →
  takeWord (s +:+ x) = (w, r +:+ x).
Proof.
  intros (-> & Hw & Hr)%takeWord_spec Hx Hne. apply takeWord_spec.
  split; [by rewrite JsString.app_assoc|]. split; [done|].
  destruct r; [|done]. simpl. by destruct x.
Qed.

Lemma matchAt_app_Some (s x k r : string) :
  matchAt s = Some (k, r) → matchAt (s +:+ x) = Some (k, r +:+ x).
Proof.
  intros (-> & Hk & Hw)%matchAt_Some. apply matchAt_Some.
  by rewrite JsString.app_assoc.
Qed.

(** No match starts in front of a placeholder and runs into it. *)
Lemma matchAt_app_None (c : ascii) (s' x : string) :
  matchAt (String c s') = None →
  matchAt (String c s' +:+ String "{" (String "{" x)) = None.
Proof.
  intros Hn. destruct (matchAt (_ +:+ _)) as [[k r]|] eqn:Hm; [|done].
  exfalso. unfold matchAt in Hn, Hm.
  destruct s' as [|c2 s1].
  { simpl in Hm. destruct (Ascii.eqb c "{"); simpl in Hm; done. }
  simpl in Hn, Hm.
  destruct (Ascii.eqb c "{" && Ascii.eqb c2 "{"); simpl in Hn, Hm; [|done].
  destruct (takeWord s1) as [w r1] eqn:Hw.
  rewrite (takeWord_app s1 (String "{" (String "{" x)) w r1) in Hm by done.
  destruct w as [|d w]; [done|].
  destruct r1 as [|y1 [|y2 r2]]; simpl in Hn, Hm.
  - done.
  - destruct (Ascii.eqb y1 "}"); simpl in Hm; done.
  - destruct (Ascii.eqb y1 "}" && Ascii.eqb y2 "}"); simpl in Hn, Hm; done.
Qed.

(** The scan of a text in front of a placeholder does not depend on the
    placeholder, nor on what follows it. *)
Lemma scan_app (pre x : string) :
  scan (pre +:+ String "{" (String "{" x))
  = scan pre ++ scan (String "{" (String "{" x)).
Proof.
  induction pre as [pre IH] using string_length_ind.
  destruct pre as [|c s']; [by rewrite scan_nil|].
  destruct (matchAt (String c s')) as [[k r]|] eqn:Hm.
  - rewrite (scan_match _ _ _ Hm).
    rewrite (scan_match _ _ _ (matchAt_app_Some _ (String "{" (String "{" x)) _ _ Hm)).
    rewrite IH; [done|]. by apply matchAt_length in Hm.
  - rewrite (scan_char _ _ Hm).
    pose proof (matchAt_app_None c s' x Hm) as Hm'.
    change (String c s' +:+ String "{" (String "{" x))
      with (String c (s' +:+ String "{" (String "{" x))) in *.
    rewrite (scan_char _ _ Hm'). rewrite IH; [done|]. simpl. lia.
Qed.

(** Every placeholder occurrence is found: the scan of a text around a
    placeholder is the scan of what precedes it, the match, and the scan of
    what follows it. *)
Lemma scan_placeholder (pre k post : string) :
  k ≠ "" → wordChars k = true →
  scan (pre +:+ literal k +:+ post) = scan pre ++ Match k :: scan post.
Proof.
  intros Hk Hw. unfold literal. rewrite !JsString.app_assoc.
  change ("{{" +:+ k +:+ "}}" +:+ post)
    with (String "{" (String "{" (k +:+ "}}" +:+ post))).
  rewrite scan_app. f_equal.
  rewrite <- (scan_literal k post) by done.
  unfold literal. by rewrite !JsString.app_assoc.
Qed.

(** The pieces of a scan spell the scanned string. *)
Lemma scan_text (s : string) :
  foldr (λ p out, pieceText p +:+ out) "" (scan s) = s.
Proof.
  induction s as [s IH] using string_length_ind.
  destruct s as [|c s']; [by rewrite scan_nil|].
  destruct (matchAt (String c s')) as [[k r]|] eqn:Hm.
  - rewrite (scan_match _ _ _ Hm). simpl.
    rewrite IH by (by apply matchAt_length in Hm).
    by apply matchAt_Some in Hm as [-> _].
  - rewrite (scan_char _ _ Hm). simpl. rewrite IH; [done|]. simpl; lia.
Qed.

(** Every match of a scan is a placeholder of the string: a non-empty run
    of word characters between the braces, at some position. *)
Lemma scan_Match (s k : string) :
  Match k ∈ scan s →
  k ≠ "" ∧ wordChars k = true ∧ ∃ pre post, s = pre +:+ literal k +:+ post.
Proof.
  induction s as [s IH] using string_length_ind.
  destruct s as [|c s']; [rewrite scan_nil; by intros ?%elem_of_nil|].
  destruct (matchAt (String c s')) as [[k' r]|] eqn:Hm.
  - rewrite (scan_match _ _ _ Hm). intros [[= <-]|Hin]%elem_of_cons.
    + apply matchAt_Some in Hm as (-> & Hk & Hw).
      split; [done|]. split; [done|]. by exists "", r.
    + apply IH in Hin as (Hk & Hw & pre & post & ->);
        [|by apply matchAt_length in Hm].
      split; [done|]. split; [done|].
      apply matchAt_Some in Hm as (-> & _ & _).
      exists (literal k' +:+ pre), post. by rewrite !JsString.app_assoc.
  - rewrite (scan_char _ _ Hm). intros [?|Hin]%elem_of_cons; [done|].
    apply IH in Hin as (Hk & Hw & pre & post & ->); [|simpl; lia].
    split; [done|]. split; [done|]. by exists (String c pre), post.
Qed.

End ScanFacts.

(** ** Insertion-ordered sets *)

Module SetFacts.
Import JsObject Spec.

Lemma setOf_acc (acc xs : list string) :
  foldl setAdd acc xs = acc ++ filter (λ y, y ∉ acc) (distinct xs).
Proof.
  revert acc. induction xs as [|x r IH]; intros acc; simpl.
  - by rewrite app_nil_r.
  - rewrite IH. unfold setAdd. destruct (decide (x ∈ acc)) as [Hin|Hni].
    + rewrite filter_cons_False by (by intros ?).
      rewrite list_filter_filter. f_equal. apply list_filter_iff.
      intros y. split; [|naive_solver]. intros Hy. split; [done|].
      by intros ->.
    + rewrite filter_cons_True by done.
      rewrite <- app_assoc. simpl. do 2 f_equal.
      rewrite list_filter_filter. apply list_filter_iff.
      intros y. rewrite elem_of_app, list_elem_of_singleton. naive_solver.
Qed.

Lemma setOf_distinct (xs : list string) : setOf xs = distinct xs.
Proof.
  unfold setOf. rewrite setOf_acc. simpl.
  induction (distinct xs) as [|y l IH]; [done|].
  rewrite filter_cons_True by (by intros ?%elem_of_nil). by rewrite IH.
Qed.

Lemma elem_of_distinct (x : string) (xs : list string) :
  x ∈ distinct xs ↔ x ∈ xs.
Proof.
  induction xs as [|y r IH]; simpl; [done|].
  rewrite !elem_of_cons, list_elem_of_filter, IH.
  destruct (decide (x = y)); naive_solver.
Qed.

Lemma NoDup_distinct (xs : list string) : NoDup (distinct xs).
Proof.
  induction xs as [|y r IH]; simpl; [constructor|].
  constructor; [|by apply NoDup_filter].
  rewrite list_elem_of_filter. naive_solver.
Qed.

End SetFacts.

(** ** The template functions of [src/utils.ts] *)

Module TemplateFacts.
Import Placeholder ScanFacts Spec SetFacts Utils.

Section Replacer.

Context (f : string → string → string).

Lemma render_app (l1 l2 : list piece) :
  render f (l1 ++ l2) = render f l1 +:+ render f l2.
Proof.
  induction l1 as [|[c|k] l1 IH]; simpl; [done|by rewrite IH|].
  fold (render f (l1 ++ l2)) (render f l1).
  by rewrite IH, JsString.app_assoc.
Qed.

(** The replacer is called once for each placeholder occurrence, and its
    result is spliced in between the replacements of the text on either
    side. *)
Lemma replace_placeholder (pre k post : string) :
  k ≠ "" → wordChars k = true →
  replace f (pre +:+ literal k +:+ post)
  = replace f pre +:+ f (literal k) k +:+ replace f post.
Proof.
  intros Hk Hw. unfold replace.
  by rewrite scan_placeholder, render_app.
Qed.

(** A replacer that returns the matched text for every captured group of a
    string leaves the string as it is. *)
Lemma replace_fixed (s : string) :
  (∀ k, k ∈ captures s → f (literal k) k = literal k) → replace f s = s.
Proof.
  intros Hf. unfold replace. rewrite <- (scan_text s) at 2.
  unfold captures in Hf. induction (scan s) as [|[c|k] l IH]; simpl.
  - done.
  - fold (render f l). rewrite IH; [done|]. intros k Hk. apply Hf.
    by simpl.
  - fold (render f l). rewrite IH.
    + rewrite Hf; [done|]. simpl. apply elem_of_cons. by left.
    + intros k' Hk'. apply Hf. simpl. apply elem_of_cons. by right.
Qed.

End Replacer.

Lemma resolveTemplate_Some (t : string) (vars : gmap string string) :
  resolveTemplate (Some t) vars
  = replace (λ _ key, default (literal key) (JsObject.get vars key)) t.
Proof. by destruct t. Qed.

(** [m.slice(2, -2)] takes the captured group out of the matched text. *)
Lemma substring_prefix (k r : string) :
  String.substring 0 (String.length k) (k +:+ r) = k.
Proof.
  induction k as [|c k IH]; simpl; [by destruct r|by rewrite IH].
Qed.

Lemma slice_literal (k : string) : JsString.slice 2 (-2) (literal k) = k.
Proof.
  unfold JsString.slice.
  assert (String.length (literal k) = String.length k + 4) as ->.
  { unfold literal. rewrite !JsString.app_length. simpl. lia. }
  change (2 <? 0)%Z with false. change (-2 <? 0)%Z with true. cbv iota.
  replace (Z.to_nat (Z.min 2 _)) with 2 by lia.
  replace (Z.to_nat (Z.max _ 0)) with (String.length k) by lia.
  unfold literal. simpl. apply substring_prefix.
Qed.

(** [s.match(re) || []] is the list of the matched texts. *)
Lemma match_or_empty (t : string) : default [] (match_ t) = matches t.
Proof. unfold match_. by destruct (matches t). Qed.

Lemma extractTemplateVars_distinct (t : string) :
  extractTemplateVars (Some t) = distinct (captures t).
Proof.
  unfold extractTemplateVars. simpl. rewrite match_or_empty.
  unfold matches. change (map ?f ?l) with (f <$> l).
  rewrite <- list_fmap_compose, setOf_distinct. f_equal.
  rewrite <- (list_fmap_id (captures t)) at 2.
  apply list_fmap_ext. intros _ k _. apply slice_literal.
Qed.

Lemma elem_of_captures (t k : string) :
  k ∈ captures t ↔
  k ≠ "" ∧ wordChars k = true ∧ ∃ pre post, t = pre +:+ literal k +:+ post.
Proof.
  unfold captures. rewrite list_elem_of_omap. split.
  - intros ([c|k'] & Hin & [= <-]). by apply scan_Match.
  - intros (Hk & Hw & pre & post & ->). exists (Match k). split; [|done].
    rewrite scan_placeholder by done. apply elem_of_app. right.
    apply elem_of_cons. by left.
Qed.

End TemplateFacts.

(** ** Claims about the template resolver *)

Module TemplateClaims.
Import Placeholder ScanFacts Spec SetFacts TemplateFacts Utils.

(** An absent template, like the empty one, resolves to the empty string. *)
Lemma resolveTemplate_absent (vars : gmap string string) :
  resolveTemplate None vars = "" ∧ resolveTemplate (Some "") vars = "".
Proof. done. Qed.

(** The general form of one substitution: whatever surrounds a placeholder,
    the call puts in its place the value the lookup yields, or its literal
    when the lookup yields [undefined]. *)
Lemma resolveTemplate_placeholder (pre k post : string)
    (vars : gmap string string) :
  k ≠ "" → wordChars k = true →
  resolveTemplate (Some (pre +:+ literal k +:+ post)) vars
  = resolveTemplate (Some pre) vars
    +:+ default (literal k) (JsObject.get vars k)
    +:+ resolveTemplate (Some post) vars.
Proof.
  intros Hk Hw. rewrite !resolveTemplate_Some.
  by rewrite replace_placeholder.
Qed.

(** A placeholder whose name is an own key of the variables is replaced by
    the value stored under it. *)
Lemma resolveTemplate_present (pre k post val : string)
    (vars : gmap string string) :
  k ≠ "" → wordChars k = true → vars !! k = Some val →
  resolveTemplate (Some (pre +:+ literal k +:+ post)) vars
  = resolveTemplate (Some pre) vars +:+ val
    +:+ resolveTemplate (Some post) vars.
Proof.
  intros Hk Hw Hv. rewrite resolveTemplate_placeholder by done.
  unfold JsObject.get. by rewrite Hv.
Qed.

(** A placeholder whose name is neither an own key nor a member of
    [Object.prototype] stays as it is written. *)
Lemma resolveTemplate_missing (pre k post : string)
    (vars : gmap string string) :
  k ≠ "" → wordChars k = true →
  vars !! k = None → JsObject.prototypeMember k = None →
  resolveTemplate (Some (pre +:+ literal k +:+ post)) vars
  = resolveTemplate (Some pre) vars +:+ literal k
    +:+ resolveTemplate (Some post) vars.
Proof.
  intros Hk Hw Hv Hp. rewrite resolveTemplate_placeholder by done.
  unfold JsObject.get. by rewrite Hv, Hp.
Qed.

(** The names of the inherited members are placeholder names. *)
Lemma prototypeMember_word (k text : string) :
  JsObject.prototypeMember k = Some text → k ≠ "" ∧ wordChars k = true.
Proof.
  unfold JsObject.prototypeMember. intros H.
  destruct (decide (k = "constructor")) as [->|_]; [done|].
  destruct (decide (k = "__proto__")) as [->|_]; [done|].
  destruct (decide (k ∈ _)) as [Hin|_]; [clear H|done].
  repeat (apply elem_of_cons in Hin as [->|Hin]; [done|]).
  by apply elem_of_nil in Hin.
Qed.

(** The extent of the defect behind C4: a placeholder that names an
    inherited member and no own key is replaced by the text of that
    member. *)
Lemma resolveTemplate_inherited (pre k post text : string)
    (vars : gmap string string) :
  vars !! k = None → JsObject.prototypeMember k = Some text →
  resolveTemplate (Some (pre +:+ literal k +:+ post)) vars
  = resolveTemplate (Some pre) vars +:+ text
    +:+ resolveTemplate (Some post) vars.
Proof.
  intros Hv Hp. destruct (prototypeMember_word k text Hp) as [Hk Hw].
  rewrite resolveTemplate_placeholder by done.
  unfold JsObject.get. by rewrite Hv, Hp.
Qed.

(** C4. The claim says that [resolve] leaves a placeholder in its literal
    form whenever its name is absent from the variables.  The code reads
    [vars[key]], which also finds the members every object inherits: for
    the template [{{constructor}}] and the empty variable map the result is
    the text of the inherited function, not the placeholder. *)
Theorem resolveTemplate_inherited_member :
  resolveTemplate (Some "{{constructor}}") ∅
  = "function Object() { [native code] }".
Proof. reflexivity. Qed.

(** C10. [resolve] is one pass from left to right: around any placeholder
    occurrence the result is the resolution of the text before it, then the
    looked-up value exactly as it is stored (or the literal when there is
    none), then the resolution of the text after it.  The value is not
    scanned again, so placeholder-shaped text inside it is output verbatim,
    and the occurrence itself is substituted once. *)
Theorem resolveTemplate_single_pass (pre k post : string)
    (vars : gmap string string) :
  k ≠ "" → wordChars k = true →
  resolveTemplate (Some (pre +:+ literal k +:+ post)) vars
  = resolveTemplate (Some pre) vars
    +:+ default (literal k) (JsObject.get vars k)
    +:+ resolveTemplate (Some post) vars.
Proof.
  intros Hk Hw. rewrite !resolveTemplate_Some.
  by rewrite replace_placeholder.
Qed.

Lemma resolveTemplate_single_pass_witness :
  "a" ≠ "" ∧ wordChars "a" = true ∧
  resolveTemplate (Some ("Hi " +:+ literal "a" +:+ "!"))
    {[ "a" := "{{b}}"; "b" := "x" ]}
  = "Hi " +:+ "{{b}}" +:+ "!".
Proof.
  split; [done|]. split; [reflexivity|].
  rewrite (resolveTemplate_single_pass "Hi " "a" "!"); [|done|reflexivity].
  reflexivity.
Defined.

(** C5, as stated, fails: the variables below cover the only placeholder
    of the template, yet the value of [a] is itself a placeholder, which
    the second call substitutes. *)
Lemma resolveTemplate_twice_differs :
  covers {[ "a" := "{{b}}"; "b" := "x" ]} (Some "{{a}}") ∧
  resolveTemplate (Some "{{a}}") {[ "a" := "{{b}}"; "b" := "x" ]}
  = "{{b}}" ∧
  resolveTemplate
    (Some (resolveTemplate (Some "{{a}}") {[ "a" := "{{b}}"; "b" := "x" ]}))
    {[ "a" := "{{b}}"; "b" := "x" ]}
  = "x".
Proof.
  split; [|split; reflexivity].
  unfold covers. change (extractTemplateVars (Some "{{a}}")) with ["a"].
  constructor; [by eexists|constructor].
Qed.

(** Nor is it enough that the values are free of braces: the braces around
    a placeholder can complete a new one. *)
Example resolveTemplate_twice_braces :
  resolveTemplate (Some "{{{{a}}}}") {[ "a" := "a" ]} = "{{a}}" ∧
  resolveTemplate (Some "{{a}}") {[ "a" := "a" ]} = "a".
Proof. split; reflexivity. Qed.

(** C5, amended. Resolving twice equals resolving once whenever no
    placeholder left in the once-resolved text is resolved by the
    variables; in particular when no placeholder is left at all. *)
Theorem resolveTemplate_idempotent (t : option string)
    (vars : gmap string string) :
  Forall (λ k, JsObject.get vars k = None)
         (extractTemplateVars (Some (resolveTemplate t vars))) →
  resolveTemplate (Some (resolveTemplate t vars)) vars
  = resolveTemplate t vars.
Proof.
  intros Hleft. rewrite resolveTemplate_Some. apply replace_fixed.
  intros k Hk. rewrite Forall_forall in Hleft. rewrite Hleft; [done|].
  by rewrite extractTemplateVars_distinct, elem_of_distinct.
Qed.

Lemma resolveTemplate_idempotent_witness :
  Forall (λ k, JsObject.get {[ "name" := "World" ]} k = None)
         (extractTemplateVars
            (Some (resolveTemplate (Some "Hello {{name}}, {{x}}")
                     {[ "name" := "World" ]}))) ∧
  resolveTemplate
    (Some (resolveTemplate (Some "Hello {{name}}, {{x}}")
             {[ "name" := "World" ]}))
    {[ "name" := "World" ]}
  = "Hello World, {{x}}".
Proof.
  assert (Forall (λ k, JsObject.get {[ "name" := "World" ]} k = None)
            (extractTemplateVars
               (Some (resolveTemplate (Some "Hello {{name}}, {{x}}")
                        {[ "name" := "World" ]})))) as Hleft.
  { change (extractTemplateVars _) with ["x"].
    constructor; [reflexivity|constructor]. }
  split; [exact Hleft|].
  rewrite (resolveTemplate_idempotent _ _ Hleft). reflexivity.
Defined.

(** C6. [extractVariables] (and [extractTemplateVars], the same function)
    returns nothing for an absent or empty template; for a template [t] it
    returns the captured groups of the pattern in the order of their first
    occurrences, without duplicates; a name is returned exactly when it is
    a non-empty run of word characters that stands between [{{] and [}}]
    somewhere in [t]. *)
Theorem extractVariables_spec (t : string) :
  extractVariables None = [] ∧ extractVariables (Some "") = [] ∧
  extractVariables (Some t) = distinct (captures t) ∧
  extractTemplateVars (Some t) = extractVariables (Some t) ∧
  NoDup (extractVariables (Some t)) ∧
  (∀ k, k ∈ extractVariables (Some t) ↔
        k ≠ "" ∧ wordChars k = true ∧
        ∃ pre post, t = pre +:+ literal k +:+ post) ∧
  extractVariables (Some "{{a}} {{b}} {{a}}") = ["a"; "b"].
Proof.
  change extractVariables with extractTemplateVars.
  split; [reflexivity|]. split; [reflexivity|].
  split; [apply extractTemplateVars_distinct|]. split; [done|].
  split; [rewrite extractTemplateVars_distinct; apply NoDup_distinct|].
  split; [|reflexivity].
  intros k.
  by rewrite extractTemplateVars_distinct, elem_of_distinct, elem_of_captures.
Qed.

End TemplateClaims.

(** ** Splitting a model id at its slashes *)

Module SplitFacts.
Import JsString.

Lemma split_nonempty (c : ascii) (s : string) : split c s ≠ [].
Proof.
  induction s as [|x s IH]; simpl; [done|].
  destruct (Ascii.eqb x c); [done|]. by destruct (split c s).
Qed.

(** A string without the separator is its own single segment. *)
Lemma split_whole (c : ascii) (s : string) :
  includes c s = false → split c s = [s].
Proof.
  induction s as [|x s IH]; simpl; [done|].
  destruct (Ascii.eqb x c); [done|]. intros H. by rewrite IH.
Qed.

(** The segments of a string around one separator are the segments of the
    two sides. *)
Lemma split_app (c : ascii) (pre post : string) :
  split c (pre +:+ String c post) = split c pre ++ split c post.
Proof.
  induction pre as [|x pre IH]; simpl.
  - by rewrite Ascii.eqb_refl.
  - rewrite IH. destruct (Ascii.eqb x c); [done|].
    pose proof (split_nonempty c pre). by destruct (split c pre).
Qed.

Lemma includes_app (c : ascii) (pre post : string) :
  includes c (pre +:+ String c post) = true.
Proof.
  induction pre as [|x pre IH]; simpl; [by rewrite Ascii.eqb_refl|].
  by destruct (Ascii.eqb x c).
Qed.

(** The first segment is the text before the first separator. *)
Lemma split_first (c : ascii) (seg rest : string) :
  includes c seg = false →
  split c seg !! 0 = Some seg ∧
  split c (seg +:+ String c rest) !! 0 = Some seg.
Proof.
  intros H. rewrite split_app, split_whole by done. done.
Qed.

(** The last segment is the text after the last separator. *)
Lemma split_last (c : ascii) (pre seg : string) :
  includes c seg = false →
  last (split c seg) = Some seg ∧
  last (split c (pre +:+ String c seg)) = Some seg.
Proof.
  intros H. rewrite split_app, split_whole by done.
  split; [done|]. by rewrite last_snoc.
Qed.

End SplitFacts.

(** ** Claims about the payload builders and the catalogue helpers *)

Module BuilderClaims.
Import Types Fixtures SplitFacts.

(** The tests of [toOpenRouterPayload] on [topP] and [temperature]. *)
Example openrouter_top_p_default :
  OpenRouter.top_p (OpenRouter.toOpenRouterPayload baseConfig ∅) = None ∧
  OpenRouter.temperature (OpenRouter.toOpenRouterPayload baseConfig ∅)
  = Some 1%float.
Proof. split; reflexivity. Qed.

Example openrouter_top_p_set :
  OpenRouter.top_p
    (OpenRouter.toOpenRouterPayload (withTopP (Some 0.9%float) baseConfig) ∅)
  = Some 0.9%float.
Proof. reflexivity. Qed.

(** C1. The OpenRouter payload has [top_p] exactly when [topP] is set and
    is not [1], and then with the value of [topP]; its [temperature] is
    that of the configuration whenever it is set, whatever the value. *)
Theorem openrouter_top_p_temperature (config : PromptConfig)
    (variables : gmap string string) (x : JsNumber.number) :
  (OpenRouter.top_p (OpenRouter.toOpenRouterPayload config variables)
   = Some x ↔ topP config = Some x ∧ (x =? 1)%float = false) ∧
  (OpenRouter.top_p (OpenRouter.toOpenRouterPayload config variables)
   = None ↔ topP config = None
            ∨ ∃ y, topP config = Some y ∧ (y =? 1)%float = true) ∧
  (OpenRouter.temperature (OpenRouter.toOpenRouterPayload config variables)
   = Some x ↔ temperature config = Some x) ∧
  (temperature config = Some 1%float →
   OpenRouter.temperature (OpenRouter.toOpenRouterPayload config variables)
   = Some 1%float).
Proof.
  simpl. unfold setAndNotOne.
  destruct (topP config) as [v|]; simpl.
  - destruct (v =? 1)%float eqn:Hv.
    + split; [|split; [|done]].
      * split; [done|]. intros [[= ->] Hx]. congruence.
      * split; [|done]. intros _. right. by exists v.
    + split; [|split; [|done]].
      * split; [by intros [= <-]|by intros [[= ->] _]].
      * split; [done|]. intros [?|(y & [= ->] & Hy)]; [done|congruence].
  - split; [naive_solver|]. split; [|done]. split; [by left|done].
Qed.

(** The model id sent to Anthropic, around the last slash of the
    configured one. *)
Lemma modelName_spec (pre seg : string) :
  JsString.includes "/" seg = false →
  Anthropic.modelName seg = seg ∧
  Anthropic.modelName (pre +:+ "/" +:+ seg)
  = if JsString.truthy seg then seg else pre +:+ "/" +:+ seg.
Proof.
  intros H. unfold Anthropic.modelName. rewrite H. split; [done|].
  change (pre +:+ "/" +:+ seg) with (pre +:+ String "/" seg).
  rewrite includes_app. by destruct (split_last "/" pre seg H) as [_ ->].
Qed.

(** C2, as stated, fails on the model field: for the id [anthropic/] the
    last segment is empty, and the payload carries the whole id. *)
Lemma anthropic_model_trailing_slash :
  last (JsString.split "/" "anthropic/") = Some "" ∧
  Anthropic.model
    (Anthropic.toAnthropicPayload (withModel "anthropic/" baseConfig) ∅)
  = "anthropic/".
Proof. split; reflexivity. Qed.

(** The tests of [toAnthropicPayload] on the model id and [max_tokens]. *)
Example anthropic_model_examples :
  Anthropic.model
    (Anthropic.toAnthropicPayload
       (withModel "anthropic/claude-sonnet-4-5" baseConfig) ∅)
  = "claude-sonnet-4-5" ∧
  Anthropic.model
    (Anthropic.toAnthropicPayload
       (withModel "claude-sonnet-4-5" baseConfig) ∅)
  = "claude-sonnet-4-5" ∧
  Anthropic.max_tokens (Anthropic.toAnthropicPayload baseConfig ∅)
  = 4096%float.
Proof. repeat split; reflexivity. Qed.

(** C2, amended. [max_tokens] is always there: [maxTokens] when that is
    truthy, 4096 otherwise.  The model field is the configured id when it
    has no slash; otherwise it is the text after the last slash when that
    text is not empty, and the whole id when it is. *)
Theorem anthropic_max_tokens_model (config : PromptConfig)
    (variables : gmap string string) (pre seg : string) :
  JsString.includes "/" seg = false →
  Anthropic.max_tokens (Anthropic.toAnthropicPayload config variables)
  = match maxTokens config with
    | Some v => if JsNumber.truthy v then v else 4096%float
    | None => 4096%float
    end ∧
  (model config = seg →
   Anthropic.model (Anthropic.toAnthropicPayload config variables) = seg) ∧
  (model config = pre +:+ "/" +:+ seg →
   Anthropic.model (Anthropic.toAnthropicPayload config variables)
   = if JsString.truthy seg then seg else model config).
Proof.
  intros Hseg. split; [done|]. simpl.
  destruct (modelName_spec pre seg Hseg) as [H1 H2].
  split; intros ->; done.
Qed.

Lemma anthropic_max_tokens_model_witness :
  JsString.includes "/" "claude-x" = false ∧
  Anthropic.max_tokens
    (Anthropic.toAnthropicPayload
       (withModel ("anthropic" +:+ "/" +:+ "claude-x") baseConfig) ∅)
  = 4096%float ∧
  Anthropic.model
    (Anthropic.toAnthropicPayload
       (withModel ("anthropic" +:+ "/" +:+ "claude-x") baseConfig) ∅)
  = "claude-x".
Proof.
  split; [reflexivity|].
  destruct (anthropic_max_tokens_model
              (withModel ("anthropic" +:+ "/" +:+ "claude-x") baseConfig) ∅
              "anthropic" "claude-x" eq_refl) as (Hmax & _ & Hmodel).
  split; [exact Hmax|exact (Hmodel eq_refl)].
Defined.

(** C3. The messages of the Anthropic payload are at most the one user
    turn, whose content is the resolved user prompt; no message has the
    system role.  The system prompt goes to the top-level [system] field,
    which is there exactly when the prompt is a non-empty string. *)
Theorem anthropic_messages_system (config : PromptConfig)
    (variables : gmap string string) (s : string) :
  length (Anthropic.messages (Anthropic.toAnthropicPayload config variables))
  ≤ 1 ∧
  Forall (λ m, role m = user ∧
               content m = Utils.resolveTemplate (userPromptTemplate config)
                             (JsObject.spread (sampleInputs config)
                                variables))
    (Anthropic.messages (Anthropic.toAnthropicPayload config variables)) ∧
  ¬ Exists (λ m, role m = system)
      (Anthropic.messages (Anthropic.toAnthropicPayload config variables)) ∧
  (Anthropic.system (Anthropic.toAnthropicPayload config variables) = Some s
   ↔ systemPrompt config = Some s ∧ s ≠ "").
Proof.
  simpl.
  destruct (JsString.truthy (Utils.resolveTemplate _ _)); simpl.
  - split; [lia|]. split; [by repeat constructor|]. split.
    + intros [[=]|?%Exists_nil]%Exists_cons. done.
    + destruct (systemPrompt config) as [[|c sp]|]; simpl; naive_solver.
  - split; [lia|]. split; [constructor|]. split.
    + by intros ?%Exists_nil.
    + destruct (systemPrompt config) as [[|c sp]|]; simpl; naive_solver.
Qed.

(** The examples of [getProvider] in the specification. *)
Example getProvider_examples :
  LangChain.getProvider "anthropic/claude-sonnet-4-5" = "anthropic" ∧
  LangChain.getProvider "gpt-4o" = "gpt-4o" ∧
  LangChain.getProvider "" = "unknown" ∧
  LangChain.getProvider "meta-llama/llama-3/70b" = "meta-llama".
Proof. repeat split; reflexivity. Qed.

(** C8, as stated, fails: the id [/gpt-4o] is not empty, its first segment
    is the empty string, and [getProvider] answers [unknown]. *)
Lemma getProvider_leading_slash :
  JsString.split "/" "/gpt-4o" !! 0 = Some "" ∧
  LangChain.getProvider "/gpt-4o" = "unknown".
Proof. split; reflexivity. Qed.

(** C8, amended. [getProvider] returns the text before the first slash (the
    whole id when it has no slash) when that text is not empty, and
    [unknown] when it is: for the empty id and for an id that starts with a
    slash. *)
Theorem getProvider_spec (seg rest : string) :
  JsString.includes "/" seg = false →
  LangChain.getProvider seg
  = (if JsString.truthy seg then seg else "unknown") ∧
  LangChain.getProvider (seg +:+ "/" +:+ rest)
  = (if JsString.truthy seg then seg else "unknown").
Proof.
  intros H. unfold LangChain.getProvider.
  change (seg +:+ "/" +:+ rest) with (seg +:+ String "/" rest).
  by destruct (split_first "/" seg rest H) as [-> ->].
Qed.

Lemma getProvider_spec_witness :
  JsString.includes "/" "meta-llama" = false ∧
  LangChain.getProvider ("meta-llama" +:+ "/" +:+ "llama-3/70b")
  = "meta-llama".
Proof.
  split; [reflexivity|].
  by destruct (getProvider_spec "meta-llama" "llama-3/70b" eq_refl) as [_ ->].
Defined.

(** C9. The supported-parameter check answers yes when the selected model
    is unknown or lists no supported parameters, and otherwise exactly when
    the list contains the parameter name. *)
Theorem has_supported_parameter (selected : option OpenRouterModel)
    (p : string) :
  PromptConfigElement.has (PromptConfigElement._supportedParams selected) p
  = match selected ≫= supported_parameters with
    | None | Some [] => true
    | Some sp => bool_decide (p ∈ sp)
    end.
Proof.
  unfold PromptConfigElement.has, PromptConfigElement._supportedParams.
  by destruct (selected ≫= supported_parameters) as [[|q sp]|].
Qed.

End BuilderClaims.

(** ** Claims about the price helpers *)

Module PriceClaims.
Import Utils.

(** The tests of the price helpers. *)
Example formatPrice_examples :
  formatPrice (Some "0") = "free" ∧ formatPrice None = "free" ∧
  formatPrice (Some "0.000003") = "$3.00/M" ∧
  formatPrice (Some "0.000015") = "$15.00/M" ∧
  formatPrice (Some "0.000000001") = "<$0.01/M".
Proof. repeat split; reflexivity. Qed.

Example priceToCostPerMillion_examples :
  priceToCostPerMillion (Some "0.000003") = Some 3%float ∧
  priceToCostPerMillion (Some "0.000015") = Some 15%float ∧
  priceToCostPerMillion (Some "0") = None ∧
  priceToCostPerMillion None = None ∧
  priceToCostPerMillion (Some "invalid") = None.
Proof. repeat split; reflexivity. Qed.

(** The part of C7 that holds: no cost for an absent price, nor for one
    that reads as [NaN] or as zero. *)
Lemma priceToCostPerMillion_absent (priceStr : string) :
  priceToCostPerMillion None = None ∧
  (is_nan (JsNumber.parseFloat priceStr) = true
   ∨ (JsNumber.parseFloat priceStr =? 0)%float = true →
   priceToCostPerMillion (Some priceStr) = None).
Proof.
  split; [done|]. unfold priceToCostPerMillion. intros H.
  destruct (negb _ || _); [done|].
  destruct (is_nan _), (_ =? 0)%float; naive_solver.
Qed.

(** A number that is not equal to itself is the one [NaN]. *)
Lemma is_nan_eq (x : float) : is_nan x = true → x = nan.
Proof.
  unfold is_nan. rewrite FloatAxioms.eqb_spec. intros H.
  rewrite <- (FloatAxioms.SF2Prim_Prim2SF x).
  destruct (Prim2SF x) as [sg|sg| |sg m e]; [| |done|]; exfalso.
  - by destruct sg.
  - by destruct sg.
  - unfold SFeqb, SFcompare in H.
    rewrite Z.compare_refl, Pos.compare_refl in H. by destruct sg.
Qed.

(** The defect in general: whenever the price string is not empty, is not
    ["0"] and does not read as a number, [formatPrice] prints [NaN]. *)
Lemma formatPrice_NaN (priceStr : string) :
  JsString.truthy priceStr = true → priceStr ≠ "0" →
  is_nan (JsNumber.parseFloat priceStr) = true →
  formatPrice (Some priceStr) = "$NaN/M".
Proof.
  intros Ht H0 Hn. unfold formatPrice. rewrite Ht.
  destruct (String.eqb_spec priceStr "0") as [->|_]; [done|]. simpl.
  by rewrite (is_nan_eq _ Hn).
Qed.

(** C7. The claim says that [formatPrice] never returns a string that
    contains [NaN].  [priceToCostPerMillion] tests its parsed price with
    [isNaN]; [formatPrice] does not, and for a price string that is no
    number it prints the [NaN] it computed. *)
Theorem formatPrice_unparsable :
  priceToCostPerMillion (Some "invalid") = None ∧
  formatPrice (Some "invalid") = "$NaN/M".
Proof. split; reflexivity. Qed.

End PriceClaims.

(** * Further properties of the code *)

(** ** Templates: [resolveTemplate], [convertTemplate], [toPromptTemplate] *)

Module TemplateExtras.
Import Placeholder ScanFacts Spec SetFacts TemplateFacts Utils.

(** Two replacers that agree on the captured groups of a string give the
    same replacement. *)
Lemma replace_ext (f g : string → string → string) (s : string) :
  (∀ k, k ∈ captures s → f (literal k) k = g (literal k) k) →
  replace f s = replace g s.
Proof.
  unfold replace, captures. intros Hfg.
  induction (scan s) as [|[c|k] l IH]; simpl; [done| |].
  - fold (render f l) (render g l). rewrite IH; [done|].
    intros k Hk. apply Hfg. by simpl.
  - fold (render f l) (render g l). rewrite IH.
    + rewrite Hfg; [done|]. simpl. apply elem_of_cons. by left.
    + intros k' Hk'. apply Hfg. simpl. apply elem_of_cons. by right.
Qed.

Lemma distinct_nil (xs : list string) : distinct xs = [] → xs = [].
Proof. by destruct xs. Qed.

Lemma captures_extract (t k : string) :
  k ∈ captures t ↔ k ∈ extractTemplateVars (Some t).
Proof. by rewrite extractTemplateVars_distinct, elem_of_distinct. Qed.

Lemma convertTemplate_Some (t : string) :
  convertTemplate (Some t) = replace (λ _ key, "{" +:+ key +:+ "}") t.
Proof. by destruct t. Qed.

(** A template in which [extractTemplateVars] finds no variable is
    resolved to itself, whatever the variables are. *)
Theorem resolveTemplate_plain (t : string) (vars : gmap string string) :
  extractTemplateVars (Some t) = [] → resolveTemplate (Some t) vars = t.
Proof.
  intros Hnone. rewrite resolveTemplate_Some. apply replace_fixed.
  intros k Hk%captures_extract. rewrite Hnone in Hk.
  by apply elem_of_nil in Hk.
Qed.

Lemma resolveTemplate_plain_witness :
  extractTemplateVars (Some "Hello {name} and {{ spaced }}") = [] ∧
  resolveTemplate (Some "Hello {name} and {{ spaced }}")
    {[ "name" := "World" ]}
  = "Hello {name} and {{ spaced }}".
Proof.
  split; [reflexivity|].
  apply (resolveTemplate_plain "Hello {name} and {{ spaced }}").
  reflexivity.
Defined.

(** The result depends on the variables only through the names the
    template mentions: two variable objects that answer alike for every
    name [extractTemplateVars] lists give the same text. *)
Theorem resolveTemplate_agree (t : option string)
    (vars1 vars2 : gmap string string) :
  Forall (λ k, JsObject.get vars1 k = JsObject.get vars2 k)
         (extractTemplateVars t) →
  resolveTemplate t vars1 = resolveTemplate t vars2.
Proof.
  intros Hsame. destruct t as [t|]; [|done].
  rewrite !resolveTemplate_Some. apply replace_ext.
  intros k Hk%captures_extract. rewrite Forall_forall in Hsame.
  by rewrite (Hsame k Hk).
Qed.

Lemma resolveTemplate_agree_witness :
  resolveTemplate (Some "Dear {{name}},") {[ "name" := "Ada"; "age" := "36" ]}
  = resolveTemplate (Some "Dear {{name}},") {[ "name" := "Ada" ]}.
Proof.
  apply resolveTemplate_agree.
  change (extractTemplateVars _) with ["name"].
  constructor; [reflexivity|constructor].
Defined.

Lemma convertTemplate_around (pre k post : string) :
  k ≠ "" → wordChars k = true →
  convertTemplate (Some (pre +:+ literal k +:+ post))
  = convertTemplate (Some pre) +:+ "{" +:+ k +:+ "}"
    +:+ convertTemplate (Some post).
Proof.
  intros Hk Hw. rewrite !convertTemplate_Some, replace_placeholder by done.
  by rewrite !JsString.app_assoc.
Qed.

(** [convertTemplate] turns a placeholder into the same name between
    single braces and converts the text on either side by itself. *)
Theorem convertTemplate_placeholder (pre k post : string) :
  k ≠ "" → wordChars k = true →
  convertTemplate (Some (pre +:+ literal k +:+ post))
  = convertTemplate (Some pre) +:+ "{" +:+ k +:+ "}"
    +:+ convertTemplate (Some post).
Proof. apply convertTemplate_around. Qed.

Lemma convertTemplate_placeholder_witness :
  "text" ≠ "" ∧ wordChars "text" = true ∧
  convertTemplate (Some ("Summarize: " +:+ literal "text" +:+ "!"))
  = "Summarize: {text}!".
Proof.
  split; [done|]. split; [reflexivity|].
  by rewrite (convertTemplate_placeholder "Summarize: " "text" "!").
Defined.

(** [convertTemplate] removes exactly two characters for each match of the
    placeholder pattern and nothing else. *)
Theorem convertTemplate_length (t : string) :
  String.length (convertTemplate (Some t))
  + 2 * length (default [] (match_ t))
  = String.length t.
Proof.
  rewrite convertTemplate_Some, match_or_empty. unfold matches, replace.
  rewrite length_fmap. rewrite <- (scan_text t) at 3. unfold captures.
  induction (scan t) as [|[c|k] l IH]; [done| |].
  - change (omap ?f (Char c :: l)) with (omap f l).
    set (ks := omap _ l) in *. simpl in *. lia.
  - change (omap ?f (Match k :: l)) with (k :: omap f l).
    set (ks := omap _ l) in *.
    change (render ?f (Match k :: l))
      with (f (literal k) k +:+ render f l).
    change (foldr ?f "" (Match k :: l))
      with (literal k +:+ foldr f "" l).
    unfold literal. simpl in *. rewrite ?JsString.app_length. simpl.
    rewrite ?JsString.app_length. simpl. lia.
Qed.

(** Every input variable [toPromptTemplate] lists stands in the user
    template it returns, between single braces. *)
Theorem toPromptTemplate_inputVariables (config : Types.PromptConfig)
    (k : string) :
  k ∈ LangChain.inputVariables (LangChain.toPromptTemplate config) →
  ∃ before after,
    LangChain.userTemplate (LangChain.toPromptTemplate config)
    = before +:+ "{" +:+ k +:+ "}" +:+ after.
Proof.
  simpl. change extractVariables with extractTemplateVars.
  destruct (Types.userPromptTemplate config) as [t|];
    [|by intros ?%elem_of_nil].
  intros (Hk & Hw & pre & post & ->)%captures_extract%elem_of_captures.
  exists (convertTemplate (Some pre)), (convertTemplate (Some post)).
  by apply convertTemplate_around.
Qed.

Lemma toPromptTemplate_inputVariables_witness :
  ∃ before after,
    LangChain.userTemplate
      (LangChain.toPromptTemplate
         (Fixtures.withUserPromptTemplate "Summarize: {{text}}"
            Fixtures.baseConfig))
    = before +:+ "{" +:+ "text" +:+ "}" +:+ after.
Proof.
  apply toPromptTemplate_inputVariables.
  change (LangChain.inputVariables _) with ["text"].
  apply elem_of_cons. by left.
Defined.

End TemplateExtras.

(** ** Model ids: [getProvider] and the model name sent to Anthropic *)

Module IdExtras.
Import JsString SplitFacts.

(** Every string is a slash-free text, alone or followed by a slash and
    more. *)
Lemma first_slash (s : string) :
  ∃ seg, includes "/" seg = false ∧
         (s = seg ∨ ∃ rest, s = seg +:+ "/" +:+ rest).
Proof.
  induction s as [|c s (seg & Hseg & IH)].
  - exists "". split; [done|by left].
  - destruct (Ascii.eqb_spec c "/") as [->|Hc].
    + exists "". split; [done|]. right. by exists s.
    + exists (String c seg). split.
      * simpl. by apply Ascii.eqb_neq in Hc as ->.
      * destruct IH as [->|[rest ->]]; [by left|right; by exists rest].
Qed.

(** A string with a slash ends in a slash-free text behind its last
    slash. *)
Lemma last_slash (s : string) :
  includes "/" s = true →
  ∃ pre seg, s = pre +:+ "/" +:+ seg ∧ includes "/" seg = false.
Proof.
  induction s as [|c s IH]; [done|]. simpl.
  destruct (includes "/" s) eqn:Hs.
  - intros _. destruct (IH eq_refl) as (pre & seg & -> & Hseg).
    by exists (String c pre), seg.
  - destruct (Ascii.eqb_spec c "/") as [->|]; [|done].
    intros _. by exists "", s.
Qed.

Lemma getProvider_segment (seg : string) :
  includes "/" seg = false →
  LangChain.getProvider seg = if truthy seg then seg else "unknown".
Proof.
  intros H. unfold LangChain.getProvider.
  by destruct (split_first "/" seg "" H) as [-> _].
Qed.

Lemma getProvider_prefix (seg rest : string) :
  includes "/" seg = false →
  LangChain.getProvider (seg +:+ "/" +:+ rest)
  = if truthy seg then seg else "unknown".
Proof.
  intros H. unfold LangChain.getProvider.
  change (seg +:+ "/" +:+ rest) with (seg +:+ String "/" rest).
  by destruct (split_first "/" seg rest H) as [_ ->].
Qed.

(** [getProvider] never answers the empty string, and its answer has no
    slash. *)
Theorem getProvider_label (modelId : string) :
  LangChain.getProvider modelId ≠ "" ∧
  includes "/" (LangChain.getProvider modelId) = false.
Proof.
  destruct (first_slash modelId) as (seg & Hseg & [->|[rest ->]]).
  - rewrite getProvider_segment by done. by destruct seg.
  - rewrite getProvider_prefix by done. by destruct seg.
Qed.

(** The provider of a provider label is the label itself. *)
Theorem getProvider_idempotent (modelId : string) :
  LangChain.getProvider (LangChain.getProvider modelId)
  = LangChain.getProvider modelId.
Proof.
  assert (∀ seg, includes "/" seg = false →
            LangChain.getProvider (if truthy seg then seg else "unknown")
            = if truthy seg then seg else "unknown") as Hfix.
  { intros [|c seg] Hseg; [done|]. simpl truthy. cbv iota.
    by rewrite getProvider_segment. }
  destruct (first_slash modelId) as (seg & Hseg & [->|[rest ->]]).
  - rewrite (getProvider_segment seg) by done. by apply Hfix.
  - rewrite (getProvider_prefix seg rest) by done. by apply Hfix.
Qed.

Lemma modelName_segment (seg : string) :
  includes "/" seg = false → Anthropic.modelName seg = seg.
Proof. intros H. unfold Anthropic.modelName. by rewrite H. Qed.

Lemma modelName_suffix (pre seg : string) :
  includes "/" seg = false →
  Anthropic.modelName (pre +:+ "/" +:+ seg)
  = if truthy seg then seg else pre +:+ "/" +:+ seg.
Proof.
  intros H. unfold Anthropic.modelName.
  change (pre +:+ "/" +:+ seg) with (pre +:+ String "/" seg).
  rewrite includes_app. by destruct (split_last "/" pre seg H) as [_ ->].
Qed.

(** The model name sent to Anthropic is stable under the stripping, and it
    is empty only for the empty model id. *)
Theorem modelName_idempotent (model : string) :
  Anthropic.modelName (Anthropic.modelName model) = Anthropic.modelName model
  ∧ (Anthropic.modelName model = "" ↔ model = "").
Proof.
  destruct (includes "/" model) eqn:Hm.
  - destruct (last_slash model Hm) as (pre & seg & -> & Hseg).
    rewrite !(modelName_suffix pre seg Hseg).
    destruct seg as [|c seg]; simpl truthy; cbv iota.
    + rewrite (modelName_suffix pre "" eq_refl). split; [done|].
      split; [|by destruct pre]. by destruct pre.
    + rewrite (modelName_segment (String c seg)) by done. split; [done|].
      split; [done|]. by destruct pre.
  - by rewrite !(modelName_segment model Hm).
Qed.

(** An id made of a provider and a model name, neither empty nor with a
    slash, is taken apart by [getProvider] and the Anthropic stripping, and
    the two parts put it together again. *)
Theorem provider_model_roundtrip (provider name : string) :
  provider ≠ "" → name ≠ "" →
  includes "/" provider = false → includes "/" name = false →
  LangChain.getProvider (provider +:+ "/" +:+ name) = provider ∧
  Anthropic.modelName (provider +:+ "/" +:+ name) = name ∧
  LangChain.getProvider (provider +:+ "/" +:+ name) +:+ "/"
  +:+ Anthropic.modelName (provider +:+ "/" +:+ name)
  = provider +:+ "/" +:+ name.
Proof.
  intros Hp Hn Hps Hns.
  rewrite getProvider_prefix, modelName_suffix by done.
  by destruct provider, name.
Qed.

Lemma provider_model_roundtrip_witness :
  LangChain.getProvider ("anthropic" +:+ "/" +:+ "claude-sonnet-4-5")
  = "anthropic" ∧
  Anthropic.modelName ("anthropic" +:+ "/" +:+ "claude-sonnet-4-5")
  = "claude-sonnet-4-5" ∧
  LangChain.getProvider ("anthropic" +:+ "/" +:+ "claude-sonnet-4-5")
  +:+ "/"
  +:+ Anthropic.modelName ("anthropic" +:+ "/" +:+ "claude-sonnet-4-5")
  = "anthropic" +:+ "/" +:+ "claude-sonnet-4-5".
Proof.
  by apply (provider_model_roundtrip "anthropic" "claude-sonnet-4-5").
Defined.

End IdExtras.

(** ** The payload builders *)

Module BuilderExtras.
Import Types Fixtures.

(** The system prompt as the message list it contributes. *)
Definition systemMessages (prompt : option string) : list Message :=
  match prompt with
  | Some sp => [{| role := system; content := sp |}]
  | None => []
  end.

(** The messages of the OpenRouter payload are a system message and a user
    message in this order, each of them optional; no message is empty, and
    none speaks for the assistant. *)
Theorem openrouter_messages (config : PromptConfig)
    (variables : gmap string string) :
  sublist
    (role <$> OpenRouter.messages
                (OpenRouter.toOpenRouterPayload config variables))
    [system; user] ∧
  Forall (λ m, content m ≠ "")
    (OpenRouter.messages (OpenRouter.toOpenRouterPayload config variables)).
Proof.
  simpl.
  destruct (systemPrompt config) as [[|c sp]|];
    destruct (Utils.resolveTemplate _ _) as [|d up]; simpl;
    (split; [repeat constructor|by repeat constructor]).
Qed.

(** The two builders tell the same conversation: the messages for
    OpenRouter are the top-level system prompt of the Anthropic payload, as
    a system message, followed by the Anthropic messages; and the sampling
    parameters both targets know are elided alike. *)
Theorem openrouter_anthropic_agree (config : PromptConfig)
    (variables : gmap string string) :
  OpenRouter.messages (OpenRouter.toOpenRouterPayload config variables)
  = systemMessages
      (Anthropic.system (Anthropic.toAnthropicPayload config variables))
    ++ Anthropic.messages (Anthropic.toAnthropicPayload config variables) ∧
  OpenRouter.temperature (OpenRouter.toOpenRouterPayload config variables)
  = Anthropic.temperature (Anthropic.toAnthropicPayload config variables) ∧
  OpenRouter.top_p (OpenRouter.toOpenRouterPayload config variables)
  = Anthropic.top_p (Anthropic.toAnthropicPayload config variables) ∧
  OpenRouter.top_k (OpenRouter.toOpenRouterPayload config variables)
  = Anthropic.top_k (Anthropic.toAnthropicPayload config variables) ∧
  OpenRouter.stop (OpenRouter.toOpenRouterPayload config variables)
  = Anthropic.stop_sequences
      (Anthropic.toAnthropicPayload config variables).
Proof.
  simpl. split; [|done].
  by destruct (systemPrompt config) as [[|c sp]|].
Qed.

(** Neither builder sends a tool choice without tools: when [tool_choice]
    is there, [tools] is there too, built from a non-empty list of the
    configuration, and the choice is not the default [auto]. *)
Theorem tool_choice_needs_tools (config : PromptConfig)
    (variables : gmap string string) :
  (is_Some (OpenRouter.tool_choice
              (OpenRouter.toOpenRouterPayload config variables)) →
   OpenRouter.tool_choice (OpenRouter.toOpenRouterPayload config variables)
   = Some (toolChoice config) ∧ toolChoice config ≠ auto ∧
   OpenRouter.tools (OpenRouter.toOpenRouterPayload config variables)
   = tools config ∧ nonEmpty (tools config) = true) ∧
  (is_Some (Anthropic.tool_choice
              (Anthropic.toAnthropicPayload config variables)) →
   toolChoice config ≠ auto ∧ nonEmpty (tools config) = true ∧
   Anthropic.tools (Anthropic.toAnthropicPayload config variables)
   = Anthropic.convertTools <$> tools config).
Proof.
  simpl. destruct (nonEmpty (tools config)); simpl.
  - destruct (toolChoice config); simpl; split; intros [x Hx]; try done.
  - split; by intros [x Hx].
Qed.

(** The variables passed to a builder and the sample inputs of the
    configuration count only through their merge, in which a variable
    passed by the caller wins over a sample input of the same name. *)
Theorem builders_merge_variables (config : PromptConfig)
    (variables : gmap string string) (key : string) :
  OpenRouter.toOpenRouterPayload config variables
  = OpenRouter.toOpenRouterPayload
      (withSampleInputs (JsObject.spread (sampleInputs config) variables)
         config) ∅ ∧
  Anthropic.toAnthropicPayload config variables
  = Anthropic.toAnthropicPayload
      (withSampleInputs (JsObject.spread (sampleInputs config) variables)
         config) ∅ ∧
  JsObject.spread (sampleInputs config) variables !! key
  = match variables !! key with
    | Some v => Some v
    | None => sampleInputs config !! key
    end.
Proof.
  unfold OpenRouter.toOpenRouterPayload, Anthropic.toAnthropicPayload.
  unfold JsObject.spread. simpl. rewrite !(left_id_L ∅ (∪)).
  split; [done|]. split; [done|].
  rewrite lookup_union. by destruct (variables !! key), (_ !! key).
Qed.

(** The payload of the [prompt-test] event is the one
    [toOpenRouterPayload] builds from the configuration with no variables
    passed. *)
Theorem onTest_payload (value : PromptConfig) :
  PromptConfigElement._onTest value
  = OpenRouter.toOpenRouterPayload value ∅.
Proof.
  unfold PromptConfigElement._onTest, OpenRouter.toOpenRouterPayload.
  unfold JsObject.spread. by rewrite (left_id_L ∅ (∪)).
Qed.

(** The response format of the OpenRouter payload is never [text]; it
    carries a schema exactly when its type is [json_schema], and then the
    schema of the configuration. *)
Theorem openrouter_response_format (config : PromptConfig)
    (variables : gmap string string) :
  match OpenRouter.response_format
          (OpenRouter.toOpenRouterPayload config variables) with
  | None =>
      responseFormat config = text
      ∨ (responseFormat config = json_schema ∧ jsonSchema config = None)
  | Some rf =>
      (OpenRouter.rfType rf = "json_object" ∧
       OpenRouter.json_schema rf = None ∧
       responseFormat config = json_object)
      ∨ (OpenRouter.rfType rf = "json_schema" ∧
         OpenRouter.json_schema rf = jsonSchema config ∧
         is_Some (jsonSchema config) ∧
         responseFormat config = json_schema)
  end.
Proof.
  simpl.
  destruct (responseFormat config), (jsonSchema config); simpl; eauto 10.
Qed.

(** A tool of type [function] with its function, as the type
    [ToolDefinition] reads. *)
Definition functionTool (f : ToolFunction) : ToolDefinition :=
  {| type := "function"; function := Some f |}.

(** [convertTools] converts the function tools one by one, in their order:
    each keeps its name, and a missing description or parameter list
    becomes an empty one.  A tool of another type, or without a function,
    is dropped wherever it stands. *)
Theorem convertTools_function_tools (fs : list ToolFunction)
    (before after : list ToolDefinition) (other : ToolDefinition) :
  Anthropic.convertTools (functionTool <$> fs)
  = (λ f, {| Anthropic.name := name f;
             Anthropic.description := default "" (description f);
             Anthropic.input_schema := default [] (parameters f) |})
    <$> fs ∧
  (String.eqb (type other) "function" = false ∨ function other = None →
   Anthropic.convertTools (before ++ other :: after)
   = Anthropic.convertTools (before ++ after)).
Proof.
  unfold Anthropic.convertTools. split.
  - induction fs as [|f fs IH]; [done|]. simpl. f_equal. exact IH.
  - intros Hother. rewrite !omap_app. f_equal. simpl.
    destruct Hother as [-> | ->]; [done|].
    by destruct (String.eqb _ _).
Qed.

End BuilderExtras.

(** ** The model list: providers, counts, search *)

Module CatalogueExtras.
Import Types PromptConfigElement.

(** The models whose id starts with the segment [p]. *)
Definition ofProvider (p : string) (ms : list OpenRouterModel)
    : list OpenRouterModel :=
  List.filter (λ m, String.eqb (idPrefix (modelId m)) p) ms.

Section ListFilter.

Context {A : Type} (f : A → bool).

Lemma elem_of_List_filter (l : list A) (x : A) :
  x ∈ List.filter f l ↔ x ∈ l ∧ f x = true.
Proof. rewrite !list_elem_of_In. apply filter_In. Qed.

Lemma sublist_List_filter (l : list A) : sublist (List.filter f l) l.
Proof.
  induction l as [|x l IH]; simpl; [constructor|].
  destruct (f x); by constructor.
Qed.

Lemma List_filter_all (l : list A) :
  (∀ x, x ∈ l → f x = true) → List.filter f l = l.
Proof.
  induction l as [|x l IH]; simpl; [done|]. intros H.
  rewrite H by (apply elem_of_cons; by left).
  rewrite IH; [done|]. intros y Hy. apply H, elem_of_cons. by right.
Qed.

End ListFilter.

(** *** The map of the counting loop *)

Lemma mapGet_mapSet (seen : list (string * nat)) (k k' : string) (v : nat) :
  mapGet (mapSet seen k v) k'
  = if String.eqb k k' then Some v else mapGet seen k'.
Proof.
  induction seen as [|[q w] r IH]; simpl.
  - by destruct (String.eqb k k').
  - destruct (String.eqb_spec q k) as [->|Hqk]; simpl.
    + by destruct (String.eqb k k').
    + rewrite IH. destruct (String.eqb_spec q k') as [->|]; [|done].
      by destruct (String.eqb_spec k k') as [->|].
Qed.

Lemma mapSet_keys (seen : list (string * nat)) (k : string) (v : nat) :
  (mapSet seen k v).*1 = JsObject.setAdd seen.*1 k.
Proof.
  unfold JsObject.setAdd. induction seen as [|[q w] r IH].
  - simpl. by destruct (decide (k ∈ [])) as [?%elem_of_nil|].
  - change (mapSet ((q, w) :: r) k v)
      with (if String.eqb q k then (q, v) :: r
            else (q, w) :: mapSet r k v).
    rewrite fmap_cons. change ((q, w).1) with q.
    destruct (String.eqb_spec q k) as [->|Hqk].
    + destruct (decide (k ∈ k :: r.*1)) as [_|Hni]; [done|].
      exfalso. apply Hni, elem_of_cons. by left.
    + rewrite fmap_cons, IH. change ((q, w).1) with q.
      destruct (decide (k ∈ r.*1)) as [Hin|Hni];
        destruct (decide (k ∈ q :: r.*1)) as [Hin'|Hni']; try done.
      * exfalso. apply Hni', elem_of_cons. by right.
      * apply elem_of_cons in Hin' as [?|?]; [congruence|done].
Qed.

Lemma mapSet_sum (seen : list (string * nat)) (k : string) :
  sum_list (mapSet seen k (default 0 (mapGet seen k) + 1)).*2
  = sum_list seen.*2 + 1.
Proof.
  induction seen as [|[q w] r IH]; [done|].
  cbn [mapGet mapSet]. destruct (String.eqb q k).
  - simpl. lia.
  - rewrite !fmap_cons. cbn [sum_list snd]. rewrite IH. lia.
Qed.

Lemma mapGet_elem_of (seen : list (string * nat)) (k : string) (v : nat) :
  NoDup seen.*1 → (k, v) ∈ seen ↔ mapGet seen k = Some v.
Proof.
  induction seen as [|[q w] r IH]; simpl.
  - intros _. split; [by intros ?%elem_of_nil|done].
  - intros [Hq Hr]%NoDup_cons. rewrite elem_of_cons, (IH Hr).
    destruct (String.eqb_spec q k) as [->|Hqk].
    + split; [|naive_solver]. intros [[= ->]|Hget]; [done|].
      apply IH in Hget; [|done]. exfalso. apply Hq.
      apply list_elem_of_fmap. by exists (k, v).
    + naive_solver.
Qed.

(** The keys of the counting map are the distinct prefixes in the order of
    their first occurrences, and each counts its models. *)
Lemma prefixCounts_acc (seen : list (string * nat))
    (ms : list OpenRouterModel) :
  (foldl countPrefix seen ms).*1
  = foldl JsObject.setAdd seen.*1 ((λ m, idPrefix (modelId m)) <$> ms) ∧
  (∀ p, mapGet (foldl countPrefix seen ms) p
        = match length (ofProvider p ms) with
          | 0 => mapGet seen p
          | S n => Some (default 0 (mapGet seen p) + S n)
          end) ∧
  sum_list (foldl countPrefix seen ms).*2 = sum_list seen.*2 + length ms.
Proof.
  revert seen. induction ms as [|m ms IH]; intros seen; simpl.
  - split; [done|]. split; [done|lia].
  - destruct (IH (countPrefix seen m)) as (Hk & Hg & Hs).
    split; [|split].
    + rewrite Hk. unfold countPrefix. by rewrite mapSet_keys.
    + intros p. rewrite Hg. unfold countPrefix at 1 2.
      rewrite mapGet_mapSet.
      destruct (String.eqb (idPrefix (modelId m)) p) eqn:Hp; simpl.
      * apply String.eqb_eq in Hp as ->.
        destruct (length (ofProvider p ms)); f_equal; lia.
      * done.
    + rewrite Hs. unfold countPrefix. rewrite mapSet_sum. lia.
Qed.

Lemma prefixCounts_keys (ms : list OpenRouterModel) :
  (prefixCounts ms).*1 = Spec.distinct ((λ m, idPrefix (modelId m)) <$> ms).
Proof.
  unfold prefixCounts. destruct (prefixCounts_acc [] ms) as [-> _].
  apply SetFacts.setOf_distinct.
Qed.

Lemma prefixCounts_NoDup (ms : list OpenRouterModel) :
  NoDup (prefixCounts ms).*1.
Proof. rewrite prefixCounts_keys. apply SetFacts.NoDup_distinct. Qed.

Lemma prefixCounts_elem_of (ms : list OpenRouterModel) (p : string)
    (n : nat) :
  (p, n) ∈ prefixCounts ms ↔ n = length (ofProvider p ms) ∧ 0 < n.
Proof.
  rewrite (mapGet_elem_of _ _ _ (prefixCounts_NoDup ms)).
  unfold prefixCounts. destruct (prefixCounts_acc [] ms) as (_ & -> & _).
  simpl. destruct (length (ofProvider p ms)); [naive_solver lia|].
  split; [intros [= <-]; lia|]. intros [-> _]. done.
Qed.

(** *** The stable sort by decreasing count *)

Lemma insertByCount_perm (x : string * nat) (l : list (string * nat)) :
  insertByCount x l ≡ₚ x :: l.
Proof.
  induction l as [|y l IH]; simpl; [done|].
  destruct (x.2 <? y.2); [|done]. rewrite IH. apply Permutation_swap.
Qed.

Lemma sortByCount_perm (l : list (string * nat)) : sortByCount l ≡ₚ l.
Proof.
  induction l as [|x l IH]; simpl; [done|].
  by rewrite insertByCount_perm, IH.
Qed.

Lemma insertByCount_sorted (x : string * nat) (l : list (string * nat)) :
  StronglySorted (λ a b, b.2 ≤ a.2) l →
  StronglySorted (λ a b, b.2 ≤ a.2) (insertByCount x l).
Proof.
  induction 1 as [|y l Hl IH Hy]; simpl; [by repeat constructor|].
  destruct (Nat.ltb_spec x.2 y.2) as [Hlt|Hge].
  - constructor; [done|]. rewrite insertByCount_perm.
    constructor; [lia|done].
  - constructor; [by constructor|]. constructor; [done|].
    eapply Forall_impl; [exact Hy|]. simpl. intros z Hz. lia.
Qed.

Lemma sortByCount_sorted (l : list (string * nat)) :
  StronglySorted (λ a b, b.2 ≤ a.2) (sortByCount l).
Proof.
  induction l as [|x l IH]; simpl; [constructor|].
  by apply insertByCount_sorted.
Qed.

(** Entries with the same count keep their order. *)
Lemma sortByCount_stable (c : nat) (l : list (string * nat)) :
  List.filter (λ e, e.2 =? c) (sortByCount l)
  = List.filter (λ e, e.2 =? c) l.
Proof.
  induction l as [|x l IH]; simpl; [done|]. rewrite <- IH.
  generalize (sortByCount l). clear IH. intros s.
  induction s as [|y s IHs]; simpl; [done|].
  destruct (Nat.ltb_spec x.2 y.2) as [Hlt|Hge]; simpl; [|done].
  rewrite IHs. simpl.
  destruct (Nat.eqb_spec x.2 c), (Nat.eqb_spec y.2 c); try done. lia.
Qed.

(** *** [_availableProviders] *)

(** The provider passes the [provider-filter] attribute. *)
Definition allowed (providerFilter : option (list string)) (p : string)
    : Prop :=
  nonEmpty providerFilter = false ∨ p ∈ default [] providerFilter.

(** The same as the test the code makes. *)
Definition allowedb (providerFilter : option (list string)) (p : string)
    : bool :=
  negb (nonEmpty providerFilter)
  || bool_decide (p ∈ default [] providerFilter).

Lemma allowed_test (providerFilter : option (list string)) (p : string) :
  allowedb providerFilter p = true ↔ allowed providerFilter p.
Proof.
  unfold allowed, allowedb.
  by rewrite orb_true_iff, negb_true_iff, bool_decide_eq_true.
Qed.

Lemma availableProviders_unfold (ms : list OpenRouterModel)
    (providerFilter : option (list string)) :
  _availableProviders ms providerFilter
  = sortByCount
      (List.filter (λ e, allowedb providerFilter e.1) (prefixCounts ms)).
Proof. done. Qed.

Lemma availableProviders_entries_aux (ms : list OpenRouterModel)
    (providerFilter : option (list string)) (p : string) (n : nat) :
  ((p, n) ∈ _availableProviders ms providerFilter ↔
   n = length (ofProvider p ms) ∧ 0 < n ∧ allowed providerFilter p) ∧
  NoDup (_availableProviders ms providerFilter).*1.
Proof.
  rewrite availableProviders_unfold. split.
  - rewrite sortByCount_perm, elem_of_List_filter, prefixCounts_elem_of.
    simpl. rewrite allowed_test. naive_solver.
  - rewrite sortByCount_perm.
    apply (sublist_NoDup _ (prefixCounts ms).*1);
      [apply prefixCounts_NoDup|].
    apply fmap_sublist, sublist_List_filter.
Qed.

(** The drop-down offers exactly the allowed providers that have a model:
    a provider is listed once, with the number of the models whose id
    starts with its name. *)
Theorem availableProviders_entries (ms : list OpenRouterModel)
    (providerFilter : option (list string)) (p : string) (n : nat) :
  ((p, n) ∈ _availableProviders ms providerFilter ↔
   n = length (ofProvider p ms) ∧ 0 < n ∧ allowed providerFilter p) ∧
  NoDup (_availableProviders ms providerFilter).*1.
Proof. apply availableProviders_entries_aux. Qed.

Lemma filter_entries_keys (g : string → nat) (allow : string → bool)
    (c : nat) (l : list (string * nat)) :
  (∀ p n, (p, n) ∈ l → n = g p) →
  (List.filter (λ e, e.2 =? c) (List.filter (λ e, allow e.1) l)).*1
  = List.filter (λ p, (g p =? c) && allow p) l.*1.
Proof.
  induction l as [|[p n] l IH]; intros Hg; [done|].
  assert (n = g p) as -> by (apply Hg, elem_of_cons; by left).
  assert (∀ q k, (q, k) ∈ l → k = g q) as Hg'.
  { intros q k Hq. apply Hg, elem_of_cons. by right. }
  specialize (IH Hg'). simpl.
  destruct (allow p), (g p =? c) eqn:Hc; simpl; rewrite ?Hc; simpl;
    (f_equal || idtac); exact IH.
Qed.

(** The providers are listed by decreasing count, and providers with the
    same count in the order in which the model list first mentions them. *)
Theorem availableProviders_order (ms : list OpenRouterModel)
    (providerFilter : option (list string)) (c : nat) :
  StronglySorted (λ a b, b.2 ≤ a.2)
    (_availableProviders ms providerFilter) ∧
  (List.filter (λ e, e.2 =? c) (_availableProviders ms providerFilter)).*1
  = List.filter
      (λ p, (length (ofProvider p ms) =? c) && allowedb providerFilter p)
      (Spec.distinct ((λ m, idPrefix (modelId m)) <$> ms)).
Proof.
  rewrite availableProviders_unfold. split; [apply sortByCount_sorted|].
  rewrite sortByCount_stable, <- prefixCounts_keys.
  apply (filter_entries_keys (λ p, length (ofProvider p ms))
           (allowedb providerFilter)).
  intros p n Hin. by apply prefixCounts_elem_of in Hin as [-> _].
Qed.

(** Without a [provider-filter] the counts of the providers add up to the
    number of models. *)
Theorem availableProviders_total (ms : list OpenRouterModel) :
  sum_list (_availableProviders ms None).*2 = length ms.
Proof.
  rewrite availableProviders_unfold, sortByCount_perm.
  rewrite List_filter_all by done. unfold prefixCounts.
  by destruct (prefixCounts_acc [] ms) as (_ & _ & ->).
Qed.

(** *** [_filteredModels] *)

(** The list shows, in the order of the catalogue, exactly the models that
    pass the provider filters in force, if there are any, and the search,
    if the search box is not blank. *)
Theorem filteredModels_spec (ms : list OpenRouterModel)
    (providerFilter : option (list string))
    (_selectedProvider _modelSearch : string) (m : OpenRouterModel) :
  sublist
    (_filteredModels ms providerFilter _selectedProvider _modelSearch) ms ∧
  (m ∈ _filteredModels ms providerFilter _selectedProvider _modelSearch ↔
   m ∈ ms ∧
   (providerFilters providerFilter _selectedProvider = []
    ∨ idPrefix (modelId m)
      ∈ providerFilters providerFilter _selectedProvider) ∧
   (JsText.trim _modelSearch = ""
    ∨ matchesSearch (JsText.toLowerCase _modelSearch) m = true)).
Proof.
  unfold _filteredModels.
  destruct (providerFilters providerFilter _selectedProvider)
    as [|f fs] eqn:Hf;
    destruct (JsText.trim _modelSearch) as [|c t] eqn:Ht; simpl.
  - split; [done|]. naive_solver.
  - split; [apply sublist_List_filter|].
    rewrite elem_of_List_filter. naive_solver.
  - split; [apply sublist_List_filter|].
    rewrite elem_of_List_filter, bool_decide_eq_true. naive_solver.
  - split.
    + etrans; apply sublist_List_filter.
    + rewrite !elem_of_List_filter, bool_decide_eq_true. naive_solver.
Qed.

(** The count shown beside a provider in the drop-down is the number of
    models listed once that provider is chosen, with no [provider-filter]
    and a blank search box; the entry [__all__] stands for no choice. *)
Theorem availableProviders_count_listed (ms : list OpenRouterModel)
    (p : string) (n : nat) :
  (p, n) ∈ _availableProviders ms None → p ≠ "__all__" →
  length (_filteredModels ms None p "") = n.
Proof.
  intros Hin Hp.
  destruct (availableProviders_entries_aux ms None p n) as [H _].
  apply H in Hin as (-> & _ & _).
  assert (providerFilters None p = [p]) as Hf.
  { unfold providerFilters. simpl. by apply String.eqb_neq in Hp as ->. }
  unfold _filteredModels. rewrite Hf.
  change (JsString.truthy (JsText.trim "")) with false. cbv iota.
  unfold ofProvider. f_equal. apply filter_ext. intros m. cbv beta.
  destruct (String.eqb_spec (idPrefix (modelId m)) p) as [Heq|Hne].
  - apply bool_decide_eq_true. apply elem_of_cons. by left.
  - apply bool_decide_eq_false. by intros Heq%list_elem_of_singleton.
Qed.

Lemma availableProviders_count_listed_witness :
  ("openai", 2) ∈ _availableProviders Fixtures.catalogue None ∧
  length (_filteredModels Fixtures.catalogue None "openai" "") = 2.
Proof.
  assert (("openai", 2) ∈ _availableProviders Fixtures.catalogue None)
    as Hin.
  { change (_availableProviders Fixtures.catalogue None)
      with [("openai", 2); ("anthropic", 1); ("meta-llama", 1)].
    apply elem_of_cons. by left. }
  split; [exact Hin|].
  by apply (availableProviders_count_listed Fixtures.catalogue "openai" 2).
Defined.

(** *** The search box *)

(** Nothing but white space. *)
Fixpoint blank (s : string) : bool :=
  match s with
  | "" => true
  | String c s' => JsNumber.isWhiteSpace c && blank s'
  end.

Lemma lowerChar_idempotent (c : ascii) :
  JsText.lowerChar (JsText.lowerChar c) = JsText.lowerChar c.
Proof. by destruct c as [[] [] [] [] [] [] [] []]. Qed.

Lemma lowerChar_space (c : ascii) :
  JsNumber.isWhiteSpace (JsText.lowerChar c) = JsNumber.isWhiteSpace c.
Proof. by destruct c as [[] [] [] [] [] [] [] []]. Qed.

Lemma toLowerCase_idempotent (s : string) :
  JsText.toLowerCase (JsText.toLowerCase s) = JsText.toLowerCase s.
Proof.
  induction s as [|c s IH]; simpl; [done|].
  by rewrite lowerChar_idempotent, IH.
Qed.

Lemma blank_toLowerCase (s : string) :
  blank (JsText.toLowerCase s) = blank s.
Proof.
  induction s as [|c s IH]; simpl; [done|]. by rewrite lowerChar_space, IH.
Qed.

Lemma trimEnd_blank (s : string) :
  JsString.truthy (JsText.trimEnd s) = negb (blank s).
Proof.
  induction s as [|c s IH]; simpl; [done|].
  destruct (JsText.trimEnd s) as [|d r]; simpl in *.
  - apply (f_equal negb) in IH. rewrite negb_involutive in IH.
    rewrite <- IH. simpl. by destruct (JsNumber.isWhiteSpace c).
  - apply (f_equal negb) in IH. rewrite negb_involutive in IH.
    rewrite <- IH. simpl. by rewrite andb_false_r.
Qed.

Lemma trimStart_blank (s : string) :
  blank (JsNumber.trimStart s) = blank s.
Proof.
  induction s as [|c s IH]; simpl; [done|].
  destruct (JsNumber.isWhiteSpace c) eqn:Hc; simpl; [done|].
  by rewrite Hc.
Qed.

(** [if (search.trim())] tests that the search is not blank. *)
Lemma trim_blank (s : string) :
  JsString.truthy (JsText.trim s) = negb (blank s).
Proof. unfold JsText.trim. by rewrite trimEnd_blank, trimStart_blank. Qed.

Lemma includesText_refl (s : string) : JsText.includesText s s = true.
Proof.
  assert (String.prefix s s = true) as Hp.
  { induction s as [|c s IH]; simpl; [done|].
    by destruct (ascii_dec c c). }
  destruct s; simpl in *; [done|]. by rewrite Hp.
Qed.

(** The search does not tell capitals from small letters: two searches
    that differ in case only list the same models. *)
Theorem filteredModels_case_insensitive (ms : list OpenRouterModel)
    (providerFilter : option (list string))
    (_selectedProvider search1 search2 : string) :
  JsText.toLowerCase search1 = JsText.toLowerCase search2 →
  _filteredModels ms providerFilter _selectedProvider search1
  = _filteredModels ms providerFilter _selectedProvider search2.
Proof.
  intros Hsame. unfold _filteredModels. rewrite !trim_blank, Hsame.
  by rewrite <- (blank_toLowerCase search1), Hsame, blank_toLowerCase.
Qed.

Lemma filteredModels_case_insensitive_witness :
  _filteredModels Fixtures.catalogue None "__all__" "GPT"
  = _filteredModels Fixtures.catalogue None "__all__" "gpt".
Proof. by apply filteredModels_case_insensitive. Defined.

(** A model of the catalogue is found by searching for its id, in any
    mix of capitals and small letters, when no provider is filtered. *)
Theorem filteredModels_finds_id (ms : list OpenRouterModel)
    (m : OpenRouterModel) (search : string) :
  m ∈ ms →
  JsText.toLowerCase search = JsText.toLowerCase (modelId m) →
  m ∈ _filteredModels ms None "__all__" search.
Proof.
  intros Hm Hsearch. unfold _filteredModels. simpl.
  destruct (JsString.truthy (JsText.trim search)); [|done].
  apply elem_of_List_filter. split; [done|]. unfold matchesSearch.
  by rewrite Hsearch, includesText_refl.
Qed.

Lemma filteredModels_finds_id_witness :
  Fixtures.catalogueModel "openai/gpt-4o" "GPT-4o"
  ∈ _filteredModels Fixtures.catalogue None "__all__" "OpenAI/GPT-4o".
Proof.
  apply filteredModels_finds_id; [|reflexivity].
  apply elem_of_cons. by left.
Defined.

(** *** The supported-parameter check before a model is known *)

(** While no model of the catalogue has the id of the configuration, in
    particular while the catalogue is not loaded, every parameter counts
    as supported. *)
Theorem supported_without_model (models : list OpenRouterModel)
    (value : PromptConfig) (p : string) :
  Forall (λ m, modelId m ≠ model value) models →
  has (_supportedParams (_selectedModel models (Some value))) p = true ∧
  has (_supportedParams (_selectedModel [] (Some value))) p = true ∧
  has (_supportedParams (_selectedModel models None)) p = true.
Proof.
  intros Hnone.
  assert (_selectedModel models (Some value) = None) as ->.
  { unfold _selectedModel. induction Hnone as [|m ms Hm _ IH]; [done|].
    simpl. by apply String.eqb_neq in Hm as ->. }
  split; [done|]. split; [done|].
  assert (_selectedModel models None = None) as ->; [|done].
  unfold _selectedModel. clear Hnone.
  induction models as [|m ms IH]; [done|exact IH].
Qed.

Lemma supported_without_model_witness :
  has (_supportedParams
         (_selectedModel Fixtures.catalogue
            (Some (Fixtures.withModel "mistral/large" Fixtures.baseConfig))))
      "tools"
  = true.
Proof.
  apply (supported_without_model Fixtures.catalogue
           (Fixtures.withModel "mistral/large" Fixtures.baseConfig) "tools").
  repeat constructor; by intros [=].
Defined.

End CatalogueExtras.

(** ** The stop-sequence editor, the sections and the test panel *)

Module PanelExtras.
Import Types PromptConfigElement Panel.

(** A stop sequence the text area can hold on one line. *)
Definition oneLine (s : string) : Prop :=
  s ≠ "" ∧ JsString.includes JsText.lineFeed s = false.

Lemma join_cons (c : ascii) (x y : string) (r : list string) :
  JsText.join (String c "") (x :: y :: r)
  = x +:+ String c (JsText.join (String c "") (y :: r)).
Proof. done. Qed.

(** Splitting undoes joining, for segments free of the separator. *)
Lemma split_join (c : ascii) (xs : list string) :
  xs ≠ [] → Forall (λ s, JsString.includes c s = false) xs →
  JsString.split c (JsText.join (String c "") xs) = xs.
Proof.
  intros Hne Hall. induction Hall as [|x r Hx Hr IH]; [done|].
  destruct r as [|y r].
  - by apply SplitFacts.split_whole.
  - rewrite join_cons, SplitFacts.split_app, IH by done.
    by rewrite SplitFacts.split_whole.
Qed.

(** No segment of a split holds the separator. *)
Lemma split_segments (c : ascii) (s : string) :
  Forall (λ seg, JsString.includes c seg = false) (JsString.split c s).
Proof.
  induction s as [|x s IH]; simpl; [by repeat constructor|].
  destruct (Ascii.eqb x c) eqn:Hx; [by constructor|].
  destruct (JsString.split c s) as [|seg segs].
  - repeat constructor. simpl. by rewrite Hx.
  - inversion IH as [|? ? Hseg Hsegs]; subst. constructor; [|done].
    simpl. by rewrite Hx.
Qed.

Lemma filter_nonempty (xs : list string) :
  Forall (λ s, s ≠ "") xs →
  List.filter (λ s, 0 <? String.length s) xs = xs.
Proof.
  induction 1 as [|x r Hx _ IH]; [done|]. simpl.
  destruct x; [done|]. simpl. by rewrite IH.
Qed.

Lemma parse_text_aux (seqs : list string) :
  Forall oneLine seqs → parseStopSeqText (stopSeqText (Some seqs)) = seqs.
Proof.
  intros Hall. unfold parseStopSeqText, stopSeqText. simpl.
  destruct seqs as [|x r]; [done|].
  rewrite split_join; [| done |].
  - apply filter_nonempty. eapply Forall_impl; [exact Hall|]. by intros s [].
  - eapply Forall_impl; [exact Hall|]. by intros s [].
Qed.

Lemma parse_oneLine (text : string) : Forall oneLine (parseStopSeqText text).
Proof.
  unfold parseStopSeqText.
  pose proof (split_segments JsText.lineFeed text) as Hall.
  induction Hall as [|x r Hx _ IH]; [constructor|]. simpl.
  destruct x as [|a x]; [exact IH|]. simpl. constructor; [|exact IH].
  by split.
Qed.

(** The text area shows the stop sequences of the configuration one per
    line, and reading the shown text back gives the same list, as long as
    no sequence is empty or holds a line feed. *)
Theorem stop_sequences_roundtrip (seqs : list string) :
  Forall oneLine seqs → parseStopSeqText (stopSeqText (Some seqs)) = seqs.
Proof. apply parse_text_aux. Qed.

Lemma stop_sequences_roundtrip_witness :
  parseStopSeqText (stopSeqText (Some ["END"; "###"; "</s>"]))
  = ["END"; "###"; "</s>"].
Proof.
  apply stop_sequences_roundtrip. repeat constructor; by intros [=].
Defined.

(** Whatever is typed in the text area, the stop sequences stored are
    non-empty and free of line feeds, so showing them and reading them
    back changes nothing; without stop sequences the area is empty and
    reads back as no sequence. *)
Theorem stop_sequences_stored (text : string) :
  Forall oneLine (parseStopSeqText text) ∧
  parseStopSeqText (stopSeqText (Some (parseStopSeqText text)))
  = parseStopSeqText text ∧
  parseStopSeqText (stopSeqText None) = [].
Proof.
  split; [apply parse_oneLine|]. split; [|done].
  apply parse_text_aux, parse_oneLine.
Qed.

(** A sequence that holds a line feed does not survive the text area: it
    comes back as its lines. *)
Theorem stop_sequences_line_feed (pre post : string) :
  oneLine pre → oneLine post →
  parseStopSeqText
    (stopSeqText (Some [pre +:+ String JsText.lineFeed post]))
  = [pre; post].
Proof.
  intros [Hpre Hpre'] [Hpost Hpost'].
  unfold parseStopSeqText, stopSeqText. simpl.
  rewrite SplitFacts.split_app, !SplitFacts.split_whole by done.
  apply filter_nonempty. by repeat constructor.
Qed.

Lemma stop_sequences_line_feed_witness :
  parseStopSeqText
    (stopSeqText (Some ["a" +:+ String JsText.lineFeed "b"]))
  = ["a"; "b"].
Proof.
  apply stop_sequences_line_feed; (split; [by intros [=]|reflexivity]).
Defined.

(** Toggling a section flips that section and leaves every other section
    as it was; the set stays free of duplicates; toggling twice gives the
    open sections back. *)
Theorem toggleSection_spec (_expandedSections : list SectionId)
    (name x : SectionId) :
  _isSectionOpen (_toggleSection _expandedSections name) x
  = (if decide (x = name)
     then negb (_isSectionOpen _expandedSections name)
     else _isSectionOpen _expandedSections x) ∧
  _isSectionOpen
    (_toggleSection (_toggleSection _expandedSections name) name) x
  = _isSectionOpen _expandedSections x ∧
  (NoDup _expandedSections →
   NoDup (_toggleSection _expandedSections name)).
Proof.
  assert (∀ s n y,
    _isSectionOpen (_toggleSection s n) y
    = if decide (y = n) then negb (_isSectionOpen s n)
      else _isSectionOpen s y) as Hflip.
  { intros s n y. unfold _isSectionOpen, _toggleSection.
    destruct (decide (y = n)) as [->|Hne].
    - destruct (decide (n ∈ s)) as [Hin|Hout].
      + rewrite (bool_decide_eq_true_2 _ Hin). simpl.
        apply bool_decide_eq_false. rewrite list_elem_of_filter. tauto.
      + rewrite (bool_decide_eq_false_2 _ Hout). simpl.
        apply bool_decide_eq_true. apply elem_of_app. right.
        by apply list_elem_of_singleton.
    - destruct (bool_decide (n ∈ s)); apply bool_decide_ext.
      + rewrite list_elem_of_filter. tauto.
      + rewrite elem_of_app, list_elem_of_singleton. tauto. }
  split; [apply Hflip|]. split.
  - rewrite !Hflip. destruct (decide (x = name)) as [->|_]; [|done].
    rewrite decide_True by done. apply negb_involutive.
  - intros Hnd. unfold _toggleSection.
    destruct (decide (name ∈ _expandedSections)) as [Hin|Hout].
    + rewrite (bool_decide_eq_true_2 _ Hin). by apply NoDup_filter.
    + rewrite (bool_decide_eq_false_2 _ Hout).
      apply NoDup_app. split; [done|]. split; [|apply NoDup_singleton].
      by intros y Hy ->%list_elem_of_singleton.
Qed.

(** The states the test panel can be in. *)
Definition consistent (st : TestState) : Prop :=
  (_testResult st = None ∨ _testError st = None) ∧
  (_testLoading st = true →
   _testResult st = None ∧ _testError st = None).

Lemma call_consistent (c : TestCall) (st : TestState) :
  consistent st → consistent (call c st).
Proof.
  intros [Hone Hload]. destruct c as [r|e|[|]]; simpl.
  - split; [by right|done].
  - split; [by left|done].
  - split; [by left|done].
  - split; [done|]. intros [=].
Qed.

(** However the host calls [setTestResult], [setTestError] and
    [setTestLoading], the panel never holds a result and an error at once,
    and while it is loading it holds neither. *)
Theorem test_panel_consistent (cs : list TestCall) :
  consistent (calls cs initialTestState).
Proof.
  unfold calls.
  assert (consistent initialTestState) as Hinit.
  { split; [by left|done]. }
  revert Hinit. generalize initialTestState as st.
  induction cs as [|c cs IH]; intros st Hst; [done|].
  simpl. by apply IH, call_consistent.
Qed.

End PanelExtras.

(** ** The price helpers at a price of zero *)

Module PriceExtras.
Import Utils.

(** A number equal to zero is one of the two zeros. *)
Lemma eqb_zero (x : float) :
  (x =? 0)%float = true → x = 0%float ∨ x = (-0)%float.
Proof.
  rewrite FloatAxioms.eqb_spec. intros H.
  rewrite <- (FloatAxioms.SF2Prim_Prim2SF x).
  change (Prim2SF 0) with (S754_zero false) in H.
  destruct (Prim2SF x) as [sg|sg| |sg m e].
  - destruct sg; [by right|by left].
  - by destruct sg.
  - done.
  - by destruct sg.
Qed.

(** Only the price string ["0"] itself is free for [formatPrice]: any other
    way to write zero, such as ["0.00"], is shown as a price below one
    cent per million, while [priceToCostPerMillion] reports no cost for
    it. *)
Theorem formatPrice_written_zero (priceStr : string) :
  priceStr ≠ "" → priceStr ≠ "0" →
  (JsNumber.parseFloat priceStr =? 0)%float = true →
  formatPrice (Some priceStr) = "<$0.01/M" ∧
  priceToCostPerMillion (Some priceStr) = None.
Proof.
  intros Hne H0 Hz. unfold formatPrice, priceToCostPerMillion.
  assert (JsString.truthy priceStr = true) as -> by by destruct priceStr.
  destruct (String.eqb_spec priceStr "0") as [->|_]; [done|]. simpl.
  rewrite Hz, orb_true_r. split; [|done].
  by destruct (eqb_zero _ Hz) as [-> | ->].
Qed.

Lemma formatPrice_written_zero_witness :
  formatPrice (Some "0.00") = "<$0.01/M" ∧
  priceToCostPerMillion (Some "0.00") = None.
Proof.
  apply formatPrice_written_zero; [by intros [=]|by intros [=]|reflexivity].
Defined.

End PriceExtras.

(** ** [estimateCost] without a usable rate *)

Module CostExtras.
Import Utils.

(** The tests of [estimateCost]. *)
Example estimateCost_examples :
  estimateCost 1000%float 500%float (Some 3%float) (Some 15%float) = Some "$0.0105" ∧
  estimateCost 1000%float 500%float None None = None ∧
  estimateCost 1000%float 500%float (Some 3%float) None = Some "$0.0030" ∧
  estimateCost 1000%float 500%float None (Some 15%float) = Some "$0.0075" ∧
  estimateCost 10%float 10%float (Some 0.1%float) (Some 0.1%float) = Some "<$0.0001".
Proof. repeat split; reflexivity. Qed.

(** When neither rate is a usable number (each is [null], zero or [NaN])
    but not both are [null], the estimate is the smallest label whatever
    the token counts are, [NaN] included; it is never a price of zero and
    never [NaN]. *)
Theorem estimateCost_no_rate (inputTokens outputTokens : JsNumber.number)
    (inputCostPerMillion outputCostPerMillion : option JsNumber.number) :
  JsNumber.whenTruthy inputCostPerMillion = None →
  JsNumber.whenTruthy outputCostPerMillion = None →
  estimateCost inputTokens outputTokens
    inputCostPerMillion outputCostPerMillion
  = match inputCostPerMillion, outputCostPerMillion with
    | None, None => None
    | _, _ => Some "<$0.0001"
    end.
Proof.
  intros Hin Hout. unfold estimateCost. rewrite Hin, Hout.
  by destruct inputCostPerMillion, outputCostPerMillion.
Qed.

Lemma estimateCost_no_rate_witness :
  estimateCost nan 500%float (Some 0%float) None = Some "<$0.0001".
Proof. by apply (estimateCost_no_rate nan 500%float (Some 0%float) None). Defined.

End CostExtras.
